(** * Evaluation core of playwright-mcp-evals: text extraction, expectation
      functions, case validation and the eval runner.

    The development is a shallow embedding of
      - [src/evals/expectations/textUtils.ts]   (text extraction, matching),
      - [src/evals/expectations/regexExpectation.ts],
      - [src/evals/expectations/errorExpectation.ts],
      - [src/evals/datasetTypes.ts]              (the zod case schema),
      - [src/evals/evalRunner.ts]                (the orchestrator),
    and, for the further properties,
      - [src/evals/expectations/textContainsExpectation.ts],
      - [src/evals/expectations/schemaExpectation.ts],
      - [src/evals/expectations/judgeExpectation.ts],
      - [src/evals/datasetLoader.ts]             (loading from an object),
      - [src/spec/conformanceChecks.ts],
      - the text-contains half of the expectation suggester.

    JavaScript values are modelled as finite trees; an object is a record
    of own data properties with [Object.prototype] as its prototype, as
    [JSON.parse] builds it.  Numbers are restricted
    to integers below 10^21 in magnitude (their decimal rendering is the one
    of [String] and of [JSON.stringify]); functions, symbols and objects
    with accessors or a custom [toJSON] are outside the model.  An object
    may have an own property named [toString]; as no value of the model is
    a function, such an object cannot be converted to a string.
    Strings are sequences of 8-bit code units; [toLowerCase] acts on the
    ASCII letters. *)

From Stdlib Require Import ZArith List Bool Ascii String Lia.
From stdpp Require Import base option list strings pretty gmap fin_maps.

Open Scope string_scope.
Open Scope list_scope.

Set Warnings "-register-all".

(** ** JavaScript values *)

Module Js.

Inductive JsValue : Type :=
| JUndefined
| JNull
| JBool (b : bool)
| JNum (n : Z)
| JBigInt (n : Z)
| JStr (s : string)
| JArr (elems : list JsValue)
| JObj (props : list (string * JsValue)).

(** What a [throw] carries: an [Error] object (with its [name] and
    [message]) or any other value. *)
Inductive JsThrown : Type :=
| ThrownError (name message : string)
| ThrownValue (v : JsValue).

(** The completion of a call: it returns a value or throws. *)
Inductive Outcome (A : Type) : Type :=
| Returned (a : A)
| Threw (e : JsThrown).
Arguments Returned {A} a.
Arguments Threw {A} e.

Definition is_returned {A} (o : Outcome A) : bool :=
  match o with Returned _ => true | Threw _ => false end.

(** [v == null] *)
Definition is_nullish (v : JsValue) : bool :=
  match v with JUndefined | JNull => true | _ => false end.

(** [a ?? b] *)
Definition nullish_coalesce (a b : JsValue) : JsValue :=
  if is_nullish a then b else a.

(** Own properties of an object literal: [k in o] and [o.k]. *)
Fixpoint own (k : string) (props : list (string * JsValue)) : option JsValue :=
  match props with
  | [] => None
  | (k', v) :: rest => if String.eqb k k' then Some v else own k rest
  end.

Definition has_key (k : string) (props : list (string * JsValue)) : bool :=
  match own k props with Some _ => true | None => false end.

Definition prop (k : string) (props : list (string * JsValue)) : JsValue :=
  match own k props with Some v => v | None => JUndefined end.

Definition nl : string := String (ascii_of_nat 10) EmptyString.

(** The string [String(v)] returns, with [Array.prototype.toString] joining
    on commas and rendering [null] and [undefined] elements as the empty
    string.  Whether the conversion returns at all is the matter of
    [ToString] below. *)
Fixpoint JS_String (v : JsValue) : string :=
  match v with
  | JUndefined => "undefined"
  | JNull => "null"
  | JBool true => "true"
  | JBool false => "false"
  | JNum n => pretty n
  | JBigInt n => pretty n
  | JStr s => s
  | JArr l =>
      String.concat ","
        (List.map (fun e => if is_nullish e then "" else JS_String e) l)
  | JObj _ => "[object Object]"
  end.

(** [Error.prototype.toString], and what [String(err)] returns for a thrown
    value of another kind. *)
Definition Thrown_String (e : JsThrown) : string :=
  match e with
  | ThrownError name msg =>
      if String.eqb msg "" then name
      else if String.eqb name "" then msg
      else name +:+ ": " +:+ msg
  | ThrownValue v => JS_String v
  end.

(** What [err instanceof Error ? err.message : String(err)] returns. *)
Definition Thrown_message (e : JsThrown) : string :=
  match e with
  | ThrownError _ msg => msg
  | ThrownValue v => JS_String v
  end.

(** *** Conversions that can throw

    [String(v)], a template literal and [Array.prototype.join] convert an
    object through its [toString] and [valueOf] methods.  A plain object
    inherits a callable [toString] from [Object.prototype] and renders as
    [[object Object]]; an own [toString] property shadows it, and since no
    value of the model is callable the conversion then goes on to [valueOf]
    (own and not callable, or inherited and returning the object itself) and
    ends in a [TypeError].  [JS_String] above is the rendering of a value
    whose conversion returns. *)

Definition primitiveTypeError : JsThrown :=
  ThrownError "TypeError" "Cannot convert object to primitive value".

(** [String(v)] *)
Fixpoint ToString (v : JsValue) : Outcome string :=
  match v with
  | JArr l =>
      let fix elems (l : list JsValue) : Outcome (list string) :=
        match l with
        | [] => Returned []
        | e :: rest =>
            match (if is_nullish e then Returned "" else ToString e) with
            | Threw x => Threw x
            | Returned t =>
                match elems rest with
                | Threw x => Threw x
                | Returned parts => Returned (t :: parts)
                end
            end
        end in
      match elems l with
      | Threw x => Threw x
      | Returned parts => Returned (String.concat "," parts)
      end
  | JObj ps =>
      if has_key "toString" ps then Threw primitiveTypeError
      else Returned "[object Object]"
  | _ => Returned (JS_String v)
  end.

(** The elements of an array as [join] converts them, first to last. *)
Fixpoint ToString_elements (l : list JsValue) : Outcome (list string) :=
  match l with
  | [] => Returned []
  | e :: rest =>
      match (if is_nullish e then Returned "" else ToString e) with
      | Threw x => Threw x
      | Returned t =>
          match ToString_elements rest with
          | Threw x => Threw x
          | Returned parts => Returned (t :: parts)
          end
      end
  end.

(** [arr.join(sep)] *)
Definition ToString_join (sep : string) (l : list JsValue) : Outcome string :=
  match ToString_elements l with
  | Threw x => Threw x
  | Returned parts => Returned (String.concat sep parts)
  end.

(** [String(err)] for a thrown value. *)
Definition ToString_thrown (e : JsThrown) : Outcome string :=
  match e with
  | ThrownError _ _ => Returned (Thrown_String e)
  | ThrownValue v => ToString v
  end.

(** [err instanceof Error ? err.message : String(err)] *)
Definition ToString_message (e : JsThrown) : Outcome string :=
  match e with
  | ThrownError _ msg => Returned msg
  | ThrownValue v => ToString v
  end.


(** *** JSON.stringify *)

Definition hex_digit (n : nat) : ascii :=
  match n with
  | 0 => "0" | 1 => "1" | 2 => "2" | 3 => "3" | 4 => "4" | 5 => "5"
  | 6 => "6" | 7 => "7" | 8 => "8" | 9 => "9" | 10 => "a" | 11 => "b"
  | 12 => "c" | 13 => "d" | 14 => "e" | _ => "f"
  end%char.

Definition dq : string := String (ascii_of_nat 34) EmptyString.

(** The escape of one code unit inside a JSON string literal. *)
Definition JSON_escape (c : ascii) : string :=
  let n := nat_of_ascii c in
  if Nat.eqb n 34 then "\" +:+ dq
  else if Nat.eqb n 92 then "\\"
  else if Nat.eqb n 8 then "\b"
  else if Nat.eqb n 9 then "\t"
  else if Nat.eqb n 10 then "\n"
  else if Nat.eqb n 12 then "\f"
  else if Nat.eqb n 13 then "\r"
  else if Nat.ltb n 32 then
    "\u00" +:+ String (hex_digit (n / 16)) (String (hex_digit (n mod 16)) "")
  else String c "".

Fixpoint JSON_escape_all (s : string) : string :=
  match s with
  | EmptyString => ""
  | String c rest => JSON_escape c +:+ JSON_escape_all rest
  end.

Definition JSON_quote (s : string) : string := dq +:+ JSON_escape_all s +:+ dq.

(** [JSON.stringify(v)] without indentation.  [Returned None] stands for the
    result [undefined]; a BigInt anywhere in the value makes the call throw
    a [TypeError].  In an array [undefined] is written [null], in an object
    a property whose value is [undefined] is left out. *)
Fixpoint JSON_serialize (v : JsValue) : Outcome (option string) :=
  match v with
  | JUndefined => Returned None
  | JNull => Returned (Some "null")
  | JBool true => Returned (Some "true")
  | JBool false => Returned (Some "false")
  | JNum n => Returned (Some (pretty n))
  | JBigInt _ =>
      Threw (ThrownError "TypeError" "Do not know how to serialize a BigInt")
  | JStr s => Returned (Some (JSON_quote s))
  | JArr l =>
      let fix elems (l : list JsValue) : Outcome (list string) :=
        match l with
        | [] => Returned []
        | e :: rest =>
            match JSON_serialize e with
            | Threw x => Threw x
            | Returned o =>
                match elems rest with
                | Threw x => Threw x
                | Returned parts =>
                    Returned (match o with Some t => t | None => "null" end
                              :: parts)
                end
            end
        end in
      match elems l with
      | Threw x => Threw x
      | Returned parts => Returned (Some ("[" +:+ String.concat "," parts +:+ "]"))
      end
  | JObj ps =>
      let fix members (ps : list (string * JsValue)) : Outcome (list string) :=
        match ps with
        | [] => Returned []
        | (k, e) :: rest =>
            match JSON_serialize e with
            | Threw x => Threw x
            | Returned o =>
                match members rest with
                | Threw x => Threw x
                | Returned parts =>
                    Returned (match o with
                              | Some t => (JSON_quote k +:+ ":" +:+ t) :: parts
                              | None => parts
                              end)
                end
            end
        end in
      match members ps with
      | Threw x => Threw x
      | Returned parts => Returned (Some ("{" +:+ String.concat "," parts +:+ "}"))
      end
  end.

Definition JSON_stringify (v : JsValue) : Outcome JsValue :=
  match JSON_serialize v with
  | Returned (Some t) => Returned (JStr t)
  | Returned None => Returned JUndefined
  | Threw x => Threw x
  end.

(** A value without BigInt anywhere inside. *)
Fixpoint bigint_free (v : JsValue) : bool :=
  match v with
  | JBigInt _ => false
  | JArr l => forallb bigint_free l
  | JObj ps => forallb (fun kv => bigint_free (snd kv)) ps
  | _ => true
  end.

(** *** String methods *)

Definition lower_ascii (c : ascii) : ascii :=
  let n := nat_of_ascii c in
  if Nat.leb 65 n && Nat.leb n 90 then ascii_of_nat (n + 32) else c.

Fixpoint toLowerCase (s : string) : string :=
  match s with
  | EmptyString => EmptyString
  | String c rest => String (lower_ascii c) (toLowerCase rest)
  end.

(** [text.includes(sub)] *)
Fixpoint includes (text sub : string) : bool :=
  String.prefix sub text
  || match text with
     | EmptyString => false
     | String _ rest => includes rest sub
     end.

(** [text.slice(0, n)] *)
Definition slice0 (n : nat) (text : string) : string := String.substring 0 n text.

End Js.

Import Js.

(** ** textUtils.ts *)

Module TextUtils.

(** The filter of [extractTextFromResponse]:
    [c != null && typeof c === 'object' && 'type' in c && c.type === 'text'
     && 'text' in c].  An array is an object without these keys. *)
Definition is_text_block (c : JsValue) : bool :=
  match c with
  | JObj ps =>
      has_key "type" ps
      && match prop "type" ps with JStr t => String.eqb t "text" | _ => false end
      && has_key "text" ps
  | _ => false
  end.

(** [.filter(...).map((c) => c.text)] *)
Definition textParts (l : list JsValue) : list JsValue :=
  List.map (fun c => match c with JObj ps => prop "text" ps | _ => JUndefined end)
           (List.filter is_text_block l).

(** [return textParts.join('\n')]: the join converts every part that is not
    [null] or [undefined] to a string, and throws when a conversion does. *)
Definition joined (parts : list JsValue) : Outcome JsValue :=
  match ToString_join nl parts with
  | Returned text => Returned (JStr text)
  | Threw x => Threw x
  end.

Definition extractTextFromResponse (response : JsValue) : Outcome JsValue :=
  match response with
  | JUndefined | JNull => Returned (JStr "")
  | JStr _ => Returned response
  | JArr l =>
      let parts := textParts l in
      if Nat.ltb 0 (length parts) then joined parts
      else JSON_stringify response
  | JObj r =>
      let fromContent :=
        match prop "content" r with
        | JArr l =>
            let parts := textParts l in
            if Nat.ltb 0 (length parts) then Some (joined parts) else None
        | _ => None
        end in
      match fromContent with
      | Some text => text
      | None =>
          let sc := prop "structuredContent" r in
          if negb (is_nullish sc) then
            match sc with
            | JStr _ => Returned sc
            | _ => JSON_stringify sc
            end
          else
            match prop "text" r with
            | JStr t => Returned (JStr t)
            | _ => JSON_stringify (JObj r)
            end
      end
  | JBool _ | JNum _ | JBigInt _ => Returned (JStr (JS_String response))
  end.

(** The shape the specification names for a text block:
    [{type: "text", text: string}]. *)
Definition spec_text_shape (c : JsValue) : bool :=
  match c with
  | JObj ps =>
      match prop "type" ps, prop "text" ps with
      | JStr t, JStr _ => String.eqb t "text"
      | _, _ => false
      end
  | _ => false
  end.

Definition findMissingSubstrings
    (text : string) (substrings : list string) (caseSensitive : bool)
  : list string :=
  let searchText := if caseSensitive then text else toLowerCase text in
  List.filter
    (fun substring =>
       let searchSubstring :=
         if caseSensitive then substring else toLowerCase substring in
       negb (includes searchText searchSubstring))
    substrings.

(** The regular-expression engine of the host: [new RegExp(pattern, flags)]
    returns a compiled expression or throws a [SyntaxError]; [regex.test]
    (no [g] or [y] flag is ever used, so it keeps no state). *)
Class RegExpEngine := {
  RegExp : Type;
  RegExp_new : string -> string -> Outcome RegExp;
  RegExp_test : RegExp -> string -> bool
}.

Section Patterns.
Context {engine : RegExpEngine}.

Definition findFailedPatterns (text : string) (patterns : list string)
  : list string :=
  List.filter
    (fun pattern =>
       match RegExp_new pattern "m" with
       | Returned regex => negb (RegExp_test regex text)
       | Threw _ => true
       end)
    patterns.
End Patterns.

End TextUtils.
Import TextUtils.

(** ** datasetTypes.ts *)

Module DatasetTypes.

(** [string | string[]] *)
Inductive StringOrList : Type :=
| OneString (s : string)
| ManyStrings (l : list string).

(** [Array.isArray(x) ? x : [x]] *)
Definition toArray (x : StringOrList) : list string :=
  match x with
  | ManyStrings l => l
  | OneString s => [s]
  end.

(** A case as the expectation functions and the runner read it.  The
    interface [EvalCase] declares every field but [expectedError]; that one
    is read by the error expectation from the same object, so it is kept
    as the raw property ([JUndefined] when the object has no such key). *)
Record EvalCase : Type := {
  ec_id : string;
  ec_description : option string;
  ec_toolName : string;
  ec_args : list (string * JsValue);
  ec_expectedExact : JsValue;
  ec_expectedSchemaName : option string;
  ec_judgeConfigId : option string;
  ec_expectedTextContains : option StringOrList;
  ec_expectedRegex : option StringOrList;
  ec_expectedError : JsValue;
  ec_metadata : option (list (string * JsValue))
}.

(** *** The zod validators used by [EvalCaseSchema] *)

Definition z_unknown (v : JsValue) : bool := true.

Definition z_string (v : JsValue) : bool :=
  match v with JStr _ => true | _ => false end.

(** [z.string().min(1, ...)] *)
Definition z_string_min1 (v : JsValue) : bool :=
  match v with JStr s => Nat.leb 1 (String.length s) | _ => false end.

(** [schema.optional()] *)
Definition z_optional (check : JsValue -> bool) (v : JsValue) : bool :=
  match v with JUndefined => true | _ => check v end.

(** [z.record(z.unknown())] *)
Definition z_record_unknown (v : JsValue) : bool :=
  match v with JObj _ => true | _ => false end.

(** [z.union([z.string(), z.array(z.string())])] *)
Definition z_string_or_strings (v : JsValue) : bool :=
  match v with
  | JStr _ => true
  | JArr l => forallb z_string l
  | _ => false
  end.

Definition ZodShape : Type := list (string * (JsValue -> bool)).

(** [z.object(shape).parse(input)]: the input must be an object whose
    properties satisfy the shape; the output carries the keys of the shape
    that the input has, in the order of the shape, and no other key (zod
    strips unrecognized keys).  [None] stands for a thrown [ZodError]. *)
Definition z_object_parse (shape : ZodShape) (input : JsValue)
  : option (list (string * JsValue)) :=
  match input with
  | JObj ps =>
      if forallb (fun kc => snd kc (prop (fst kc) ps)) shape
      then Some (List.flat_map
                   (fun kc => match own (fst kc) ps with
                              | Some v => [(fst kc, v)]
                              | None => []
                              end)
                   shape)
      else None
  | _ => None
  end.

Definition EvalCaseSchema : ZodShape :=
  [ ("id", z_string_min1);
    ("description", z_optional z_string);
    ("toolName", z_string_min1);
    ("args", z_record_unknown);
    ("expectedExact", z_optional z_unknown);
    ("expectedSchemaName", z_optional z_string);
    ("judgeConfigId", z_optional z_string);
    ("expectedTextContains", z_optional z_string_or_strings);
    ("expectedRegex", z_optional z_string_or_strings);
    ("metadata", z_optional z_record_unknown) ].

(** *** The typed view of a case object

    TypeScript reads the validated (or, when validation is switched off,
    the raw) object through the interface: field [f] of the record is
    property [f] of the object. *)

Definition as_string (v : JsValue) : string :=
  match v with JStr s => s | _ => "" end.

Definition as_optional_string (v : JsValue) : option string :=
  match v with JStr s => Some s | _ => None end.

Definition as_strings (l : list JsValue) : list string := List.map as_string l.

Definition as_string_or_list (v : JsValue) : option StringOrList :=
  match v with
  | JStr s => Some (OneString s)
  | JArr l => Some (ManyStrings (as_strings l))
  | _ => None
  end.

Definition as_record (v : JsValue) : list (string * JsValue) :=
  match v with JObj ps => ps | _ => [] end.

Definition as_optional_record (v : JsValue) : option (list (string * JsValue)) :=
  match v with JObj ps => Some ps | _ => None end.

Definition EvalCase_of_object (o : list (string * JsValue)) : EvalCase :=
  {| ec_id := as_string (prop "id" o);
     ec_description := as_optional_string (prop "description" o);
     ec_toolName := as_string (prop "toolName" o);
     ec_args := as_record (prop "args" o);
     ec_expectedExact := prop "expectedExact" o;
     ec_expectedSchemaName := as_optional_string (prop "expectedSchemaName" o);
     ec_judgeConfigId := as_optional_string (prop "judgeConfigId" o);
     ec_expectedTextContains := as_string_or_list (prop "expectedTextContains" o);
     ec_expectedRegex := as_string_or_list (prop "expectedRegex" o);
     ec_expectedError := prop "expectedError" o;
     ec_metadata := as_optional_record (prop "metadata" o) |}.

(** [validateEvalCase]: [EvalCaseSchema.parse(evalCase)], read as an
    [EvalCase]; [None] when the parse throws. *)
Definition validateEvalCase (evalCase : JsValue) : option EvalCase :=
  EvalCase_of_object <$> z_object_parse EvalCaseSchema evalCase.

End DatasetTypes.

Import DatasetTypes.

(** ** The expectation functions *)

Module Expectations.

Record EvalExpectationResult : Type := {
  er_pass : bool;
  er_details : option string
}.

(** [const text = extractTextFromResponse(response)] followed by string
    operations on [text].  The extractor only ever returns strings (see
    [extractTextFromResponse_string] below), so the second branch is never
    taken; it stands for the [TypeError] of a string method on a
    non-string. *)
Definition with_text {A : Type} (response : JsValue) (k : string -> Outcome A)
  : Outcome A :=
  match extractTextFromResponse response with
  | Returned (JStr text) => k text
  | Returned _ => Threw (ThrownError "TypeError" "text.slice is not a function")
  | Threw e => Threw e
  end.

(** [`${text.slice(0, 500)}${text.length > 500 ? '...' : ''}`] *)
Definition preview (text : string) : string :=
  slice0 500 text +:+ (if Nat.ltb 500 (String.length text) then "..." else "").

(** [xs.map((s) => `"${s}"`).join(', ')] *)
Definition quoted_list (xs : list string) : string :=
  String.concat ", " (List.map (fun s => dq +:+ s +:+ dq) xs).

(** *** textContainsExpectation.ts *)

Definition createTextContainsExpectation
    (caseSensitive : bool) (evalCase : EvalCase) (response : JsValue)
  : Outcome EvalExpectationResult :=
  match ec_expectedTextContains evalCase with
  | None =>
      Returned {| er_pass := true;
                  er_details := Some "No expectedTextContains defined, skipping" |}
  | Some expected =>
      with_text response (fun text =>
        let expectedSubstrings := toArray expected in
        let missing := findMissingSubstrings text expectedSubstrings caseSensitive in
        if Nat.eqb (length missing) 0 then
          Returned {| er_pass := true;
                      er_details := Some
                        (if Nat.eqb (length expectedSubstrings) 1
                         then "Text contains expected substring"
                         else "Text contains all "
                              +:+ pretty (length expectedSubstrings)
                              +:+ " expected substrings") |}
        else
          Returned {| er_pass := false;
                      er_details := Some
                        ("Missing " +:+ pretty (length missing)
                         +:+ " substring(s): " +:+ quoted_list missing
                         +:+ nl +:+ nl +:+ "Response text:" +:+ nl
                         +:+ preview text) |})
  end.

(** *** regexExpectation.ts *)

Section Regex.
Context {engine : RegExpEngine}.

(** One line of the failure report: the pattern is compiled once more,
    without flags, to tell an invalid pattern from a non-matching one. *)
Definition failureLine (pattern : string) : string :=
  match RegExp_new pattern "" with
  | Returned _ => "  - Pattern: /" +:+ pattern +:+ "/"
  | Threw error =>
      "  - Invalid pattern: /" +:+ pattern +:+ "/ ("
      +:+ match error with
          | ThrownError _ message => message
          | ThrownValue _ => "syntax error"
          end
      +:+ ")"
  end.

Definition createRegexExpectation (evalCase : EvalCase) (response : JsValue)
  : Outcome EvalExpectationResult :=
  match ec_expectedRegex evalCase with
  | None =>
      Returned {| er_pass := true;
                  er_details := Some "No expectedRegex defined, skipping" |}
  | Some expected =>
      with_text response (fun text =>
        let patterns := toArray expected in
        let failed := findFailedPatterns text patterns in
        if Nat.eqb (length failed) 0 then
          Returned {| er_pass := true;
                      er_details := Some
                        (if Nat.eqb (length patterns) 1
                         then "Text matches expected pattern"
                         else "Text matches all " +:+ pretty (length patterns)
                              +:+ " expected patterns") |}
        else
          let failureDetails := String.concat nl (List.map failureLine failed) in
          Returned {| er_pass := false;
                      er_details := Some
                        ("Failed to match " +:+ pretty (length failed)
                         +:+ " pattern(s):" +:+ nl +:+ failureDetails
                         +:+ nl +:+ nl +:+ "Response text:" +:+ nl
                         +:+ preview text) |})
  end.
End Regex.

(** *** errorExpectation.ts *)

(** [result?.isError === true]: only an object has the property. *)
Definition hasError (response : JsValue) : bool :=
  match response with
  | JObj ps => match prop "isError" ps with JBool true => true | _ => false end
  | _ => false
  end.

(** The elements of an [expectedError] array as [findMissingSubstrings]
    uses them: [substring.toLowerCase()] throws a [TypeError] on the first
    element that is not a string. *)
Fixpoint lowerable (l : list JsValue) : Outcome (list string) :=
  match l with
  | [] => Returned []
  | JStr s :: rest =>
      match lowerable rest with
      | Returned ss => Returned (s :: ss)
      | Threw e => Threw e
      end
  | v :: _ =>
      Threw (ThrownError "TypeError"
               (if is_nullish v
                then "Cannot read properties of " +:+ JS_String v
                     +:+ " (reading 'toLowerCase')"
                else "substring.toLowerCase is not a function"))
  end.

Definition createErrorExpectation (evalCase : EvalCase) (response : JsValue)
  : Outcome EvalExpectationResult :=
  let expectedError := ec_expectedError evalCase in
  match expectedError with
  | JUndefined =>
      Returned {| er_pass := true;
                  er_details := Some "No error expectation defined, skipping" |}
  | _ =>
      if negb (hasError response) then
        Returned {| er_pass := false;
                    er_details := Some
                      "Expected tool to return isError: true, but it returned success" |}
      else
        let matching (patterns : list JsValue) :=
          with_text response (fun errorText =>
            match lowerable patterns with
            | Threw e => Threw e
            | Returned patterns =>
                let missing := findMissingSubstrings errorText patterns false in
                if Nat.ltb 0 (length missing) then
                  Returned {| er_pass := false;
                              er_details := Some
                                ("Error message missing expected content: "
                                 +:+ quoted_list missing
                                 +:+ nl +:+ nl +:+ "Actual error:" +:+ nl
                                 +:+ preview errorText) |}
                else
                  Returned {| er_pass := true;
                              er_details := Some
                                "Tool returned expected error with matching message" |}
            end) in
        match expectedError with
        | JBool true =>
            Returned {| er_pass := true;
                        er_details := Some
                          "Tool correctly returned an error as expected" |}
        | JStr _ => matching [expectedError]
        | JArr l => matching l
        | _ =>
            Returned {| er_pass := true;
                        er_details := Some
                          "Tool correctly returned an error as expected" |}
        end
  end.

End Expectations.

Import Expectations.

(** ** evalRunner.ts *)

Module Runner.

Section Runner.
(** The state of everything outside the runner: the tool server, the
    judge service, the clock, whatever the callback writes to. *)
Variable World : Type.
(** [LLMJudgeClient] *)
Variable JudgeClient : Type.
(** [Date.now()] *)
Variable now : World -> Z.

(** An awaited call: it runs on the current world, returns or throws, and
    leaves a new world. *)
Definition Async (A : Type) : Type := World -> Outcome A * World.

(** [CallToolResult] *)
Record CallToolResult : Type := {
  content : JsValue;
  structuredContent : JsValue;
  isError : option bool
}.

Record MCPFixtureApi : Type := {
  callTool : string -> list (string * JsValue) -> Async CallToolResult
}.

Record EvalExpectationContext : Type := {
  mcp : MCPFixtureApi;
  judgeClient : option JudgeClient
}.

Definition EvalExpectation : Type :=
  EvalExpectationContext -> EvalCase -> JsValue -> Async EvalExpectationResult.

Record EvalCaseResult : Type := {
  cr_id : string;
  cr_pass : bool;
  cr_response : JsValue;
  cr_error : option string;
  cr_expectations : gmap string EvalExpectationResult;
  cr_durationMs : Z
}.

Record EvalRunnerResult : Type := {
  total : nat;
  passed : nat;
  failed : nat;
  caseResults : list EvalCaseResult;
  durationMs : Z
}.

Record EvalDataset : Type := {
  ds_name : string;
  ds_description : option string;
  ds_cases : list EvalCase;
  ds_metadata : option (list (string * JsValue))
}.

(** The [expectations] option is the object the caller built: a finite
    map from property names to functions.  The runner reads the keys
    [exact], [schema] and [judge] of it. *)
Record EvalRunnerOptions : Type := {
  dataset : EvalDataset;
  expectations : gmap string EvalExpectation;
  o_judgeClient : option JudgeClient;
  stopOnFailure : option bool;
  onCaseComplete : option (EvalCaseResult -> Async unit)
}.

(** The calls the runner makes to its collaborators, in order.  The log
    is carried along the world; the runner appends to it and never reads
    it. *)
Inductive Call : Type :=
| CallTool (toolName : string) (args : list (string * JsValue))
| CallExpectation (key : string) (caseId : string) (response : JsValue)
| CallOnCaseComplete (caseId : string).

Record RunState : Type := {
  world : World;
  calls : list Call
}.

Definition logged (c : Call) (st : RunState) (w : World) : RunState :=
  {| world := w; calls := calls st ++ [c] |}.

(** Truthiness of [error : string | undefined]. *)
Definition truthy (error : option string) : bool :=
  match error with
  | Some s => negb (String.eqb s "")
  | None => false
  end.

(** [Object.values(expectationResults).every((result) => ... result.pass)] *)
Definition every_pass (results : gmap string EvalExpectationResult) : bool :=
  bool_decide (map_Forall (fun _ result => er_pass result = true) results).

(** The slot written by a [catch] block:
    [{ pass: false, details: `<Label> expectation threw error: ${String(err)}` }] *)
Definition threwResult (label : string) (err : JsThrown) : EvalExpectationResult :=
  {| er_pass := false;
     er_details := Some (label +:+ " expectation threw error: "
                         +:+ Thrown_String err) |}.

(** One guarded block of the runner, for the key [k] of [expectations]:
    [if (expectations.k) { try { results.k = await expectations.k(...) }
                           catch (err) { results.k = { pass: false, ... } } }] *)
Definition runExpectation
    (key label : string) (options : EvalRunnerOptions)
    (enrichedContext : EvalExpectationContext)
    (evalCase : EvalCase) (response : JsValue)
    (acc : gmap string EvalExpectationResult * RunState)
  : gmap string EvalExpectationResult * RunState :=
  let '(expectationResults, st) := acc in
  match expectations options !! key with
  | None => acc
  | Some f =>
      let '(o, w) := f enrichedContext evalCase response (world st) in
      let st' := logged (CallExpectation key (ec_id evalCase) response) st w in
      match o with
      | Returned result => (<[key := result]> expectationResults, st')
      | Threw err => (<[key := threwResult label err]> expectationResults, st')
      end
  end.

(** [{ ...context, judgeClient: judgeClient ?? context.judgeClient ?? null }] *)
Definition enrich (options : EvalRunnerOptions) (context : EvalExpectationContext)
  : EvalExpectationContext :=
  {| mcp := mcp context;
     judgeClient := match o_judgeClient options with
                    | Some j => Some j
                    | None => judgeClient context
                    end |}.

(** [result.structuredContent ?? result.content] *)
Definition narrowed (result : CallToolResult) : JsValue :=
  nullish_coalesce (structuredContent result) (content result).

(** The body of the [for] loop up to the construction of [caseResult]. *)
Definition runCase
    (options : EvalRunnerOptions) (context : EvalExpectationContext)
    (evalCase : EvalCase) (st : RunState)
  : EvalCaseResult * RunState :=
  let enrichedContext := enrich options context in
  let caseStartTime := now (world st) in
  let '(called, w1) :=
    callTool (mcp context) (ec_toolName evalCase) (ec_args evalCase) (world st) in
  let st1 := logged (CallTool (ec_toolName evalCase) (ec_args evalCase)) st w1 in
  let '(response, error) :=
    match called with
    | Returned result => (narrowed result, None)
    | Threw err => (JUndefined, Some (Thrown_message err))
    end in
  let '(expectationResults, st2) :=
    if negb (truthy error) then
      runExpectation "judge" "Judge" options enrichedContext evalCase response
        (runExpectation "schema" "Schema" options enrichedContext evalCase response
           (runExpectation "exact" "Exact" options enrichedContext evalCase response
              (∅, st1)))
    else (∅, st1) in
  let pass := negb (truthy error) && every_pass expectationResults in
  ({| cr_id := ec_id evalCase;
      cr_pass := pass;
      cr_response := response;
      cr_error := error;
      cr_expectations := expectationResults;
      cr_durationMs := now (world st2) - caseStartTime |},
   st2).

(** The [for (const evalCase of dataset.cases)] loop with its [break];
    a throwing [onCaseComplete] is not caught and ends the run. *)
Fixpoint runCases
    (options : EvalRunnerOptions) (context : EvalExpectationContext)
    (cases : list EvalCase) (caseResults : list EvalCaseResult) (st : RunState)
  : Outcome (list EvalCaseResult) * RunState :=
  match cases with
  | [] => (Returned caseResults, st)
  | evalCase :: rest =>
      let '(caseResult, st1) := runCase options context evalCase st in
      let caseResults := caseResults ++ [caseResult] in
      let '(notified, st2) :=
        match onCaseComplete options with
        | Some callback =>
            let '(o, w) := callback caseResult (world st1) in
            (o, logged (CallOnCaseComplete (cr_id caseResult)) st1 w)
        | None => (Returned tt, st1)
        end in
      match notified with
      | Threw err => (Threw err, st2)
      | Returned _ =>
          if default false (stopOnFailure options) && negb (cr_pass caseResult)
          then (Returned caseResults, st2)
          else runCases options context rest caseResults st2
      end
  end.

Definition runEvalDataset
    (options : EvalRunnerOptions) (context : EvalExpectationContext)
    (st : RunState)
  : Outcome EvalRunnerResult * RunState :=
  let startTime := now (world st) in
  let '(looped, st') :=
    runCases options context (ds_cases (dataset options)) [] st in
  match looped with
  | Threw err => (Threw err, st')
  | Returned caseResults =>
      (Returned
         {| total := length caseResults;
            passed := length (List.filter cr_pass caseResults);
            failed := length (List.filter (fun r => negb (cr_pass r)) caseResults);
            caseResults := caseResults;
            durationMs := now (world st') - startTime |},
       st')
  end.

(** A function that touches nothing outside, as an awaited call. *)
Definition async {A : Type} (o : Outcome A) : Async A := fun w => (o, w).

End Runner.

Arguments callTool {World} _ _ _ _.
Arguments mcp {World JudgeClient} _.
Arguments judgeClient {World JudgeClient} _.
Arguments world {World} _.
Arguments calls {World} _.
Arguments logged {World} _ _ _.
Arguments dataset {World JudgeClient} _.
Arguments expectations {World JudgeClient} _.
Arguments o_judgeClient {World JudgeClient} _.
Arguments stopOnFailure {World JudgeClient} _.
Arguments onCaseComplete {World JudgeClient} _.
Arguments runExpectation {World JudgeClient} _ _ _ _ _ _ _.
Arguments enrich {World JudgeClient} _ _.
Arguments runCase {World JudgeClient} _ _ _ _ _.
Arguments runCases {World JudgeClient} _ _ _ _ _ _.
Arguments runEvalDataset {World JudgeClient} _ _ _ _.
Arguments async {World A} _ _.

(** The keys of [expectations] that the runner reads, each with the label
    it uses in the details of a throwing expectation. *)
Definition kinds : list (string * string) :=
  [("exact", "Exact"); ("schema", "Schema"); ("judge", "Judge")].

(** What a slot holds after its guarded block, from the completion of the
    expectation function. *)
Definition settled (label : string) (o : Outcome EvalExpectationResult)
  : EvalExpectationResult :=
  match o with
  | Returned result => result
  | Threw err => threwResult label err
  end.

(** What holds of the slots [results], the state [st] and the calls
    [extra] made since [st0], once the blocks of [done] have run. *)
Definition blocks_done {World JudgeClient : Type}
    (options : EvalRunnerOptions World JudgeClient)
    (context : EvalExpectationContext World JudgeClient)
    (evalCase : EvalCase) (response : JsValue) (st0 : RunState World)
    (done : list (string * string))
    (results : gmap string EvalExpectationResult)
    (st : RunState World) (extra : list Call) : Prop :=
  calls st = calls st0 ++ extra /\
  (forall call, In call extra ->
     exists key, call = CallExpectation key (ec_id evalCase) response
                 /\ is_Some (expectations options !! key)) /\
  (forall key label, In (key, label) done ->
     match expectations options !! key with
     | None => results !! key = None
     | Some f =>
         exists w, results !! key
                   = Some (settled label (f context evalCase response w).1)
                   /\ In (CallExpectation key (ec_id evalCase) response) extra
     end) /\
  (forall key, ~ In key (List.map fst done) -> results !! key = None).

End Runner.

(** ** evalRunner.ts: the conversions inside the catch blocks

    [Runner] renders a caught value with [Thrown_String] and
    [Thrown_message], that is, with what [String(err)] returns.  The
    conversion can itself throw.  It is evaluated inside the [catch] block,
    so nothing catches its [TypeError]: the error leaves the loop and
    [runEvalDataset] rejects.  The definitions of this module follow the same
    source lines with the conversions [ToString_thrown] and
    [ToString_message]; they return what [Runner] returns whenever they
    return. *)

Module StrictRunner.
Import Runner.

Section Runner.
Variable World : Type.
Variable JudgeClient : Type.
Variable now : World -> Z.

(** One guarded block:
    [if (expectations.k) { try { results.k = await expectations.k(...) }
       catch (err) { results.k = { pass: false,
         details: `<Label> expectation threw error: ${String(err)}` } } }] *)
Definition runExpectation
    (key label : string) (options : EvalRunnerOptions World JudgeClient)
    (enrichedContext : EvalExpectationContext World JudgeClient)
    (evalCase : EvalCase) (response : JsValue)
    (acc : gmap string EvalExpectationResult * RunState World)
  : Outcome (gmap string EvalExpectationResult) * RunState World :=
  let '(expectationResults, st) := acc in
  match expectations options !! key with
  | None => (Returned expectationResults, st)
  | Some f =>
      let '(o, w) := f enrichedContext evalCase response (world st) in
      let st' := logged (CallExpectation key (ec_id evalCase) response) st w in
      match o with
      | Returned result => (Returned (<[key := result]> expectationResults), st')
      | Threw err =>
          match ToString_thrown err with
          | Returned text =>
              (Returned
                 (<[key := {| er_pass := false;
                              er_details := Some (label +:+ " expectation threw error: "
                                                  +:+ text) |}]>
                    expectationResults),
               st')
          | Threw typeError => (Threw typeError, st')
          end
      end
  end.

(** The next statement runs when the one before it completed normally. *)
Definition next {A B : Type}
    (first : Outcome A * RunState World)
    (second : A * RunState World -> Outcome B * RunState World)
  : Outcome B * RunState World :=
  match first with
  | (Returned a, st) => second (a, st)
  | (Threw err, st) => (Threw err, st)
  end.

(** The body of the [for] loop up to the construction of [caseResult]. *)
Definition runCase
    (options : EvalRunnerOptions World JudgeClient)
    (context : EvalExpectationContext World JudgeClient)
    (evalCase : EvalCase) (st : RunState World)
  : Outcome EvalCaseResult * RunState World :=
  let enrichedContext := enrich options context in
  let caseStartTime := now (world st) in
  let '(called, w1) :=
    callTool (mcp context) (ec_toolName evalCase) (ec_args evalCase) (world st) in
  let st1 := logged (CallTool (ec_toolName evalCase) (ec_args evalCase)) st w1 in
  let caught :=
    match called with
    | Returned result => Returned (narrowed result, None)
    | Threw err =>
        match ToString_message err with
        | Returned message => Returned (JUndefined, Some message)
        | Threw typeError => Threw typeError
        end
    end in
  match caught with
  | Threw typeError => (Threw typeError, st1)
  | Returned (response, error) =>
      let blocks :=
        if negb (truthy error) then
          next
            (next
               (runExpectation "exact" "Exact" options enrichedContext evalCase
                  response (∅, st1))
               (runExpectation "schema" "Schema" options enrichedContext evalCase
                  response))
            (runExpectation "judge" "Judge" options enrichedContext evalCase
               response)
        else (Returned ∅, st1) in
      match blocks with
      | (Threw typeError, st2) => (Threw typeError, st2)
      | (Returned expectationResults, st2) =>
          let pass := negb (truthy error) && every_pass expectationResults in
          (Returned
             {| cr_id := ec_id evalCase;
                cr_pass := pass;
                cr_response := response;
                cr_error := error;
                cr_expectations := expectationResults;
                cr_durationMs := now (world st2) - caseStartTime |},
           st2)
      end
  end.

(** The [for (const evalCase of dataset.cases)] loop with its [break]. *)
Fixpoint runCases
    (options : EvalRunnerOptions World JudgeClient)
    (context : EvalExpectationContext World JudgeClient)
    (cases : list EvalCase) (caseResults : list EvalCaseResult)
    (st : RunState World)
  : Outcome (list EvalCaseResult) * RunState World :=
  match cases with
  | [] => (Returned caseResults, st)
  | evalCase :: rest =>
      match runCase options context evalCase st with
      | (Threw typeError, st1) => (Threw typeError, st1)
      | (Returned caseResult, st1) =>
          let caseResults := caseResults ++ [caseResult] in
          let '(notified, st2) :=
            match onCaseComplete options with
            | Some callback =>
                let '(o, w) := callback caseResult (world st1) in
                (o, logged (CallOnCaseComplete (cr_id caseResult)) st1 w)
            | None => (Returned tt, st1)
            end in
          match notified with
          | Threw err => (Threw err, st2)
          | Returned _ =>
              if default false (stopOnFailure options) && negb (cr_pass caseResult)
              then (Returned caseResults, st2)
              else runCases options context rest caseResults st2
          end
      end
  end.

Definition runEvalDataset
    (options : EvalRunnerOptions World JudgeClient)
    (context : EvalExpectationContext World JudgeClient)
    (st : RunState World)
  : Outcome EvalRunnerResult * RunState World :=
  let startTime := now (world st) in
  let '(looped, st') :=
    runCases options context (ds_cases (dataset options)) [] st in
  match looped with
  | Threw err => (Threw err, st')
  | Returned caseResults =>
      (Returned
         {| total := length caseResults;
            passed := length (List.filter cr_pass caseResults);
            failed := length (List.filter (fun r => negb (cr_pass r)) caseResults);
            caseResults := caseResults;
            durationMs := now (world st') - startTime |},
       st')
  end.

End Runner.

Arguments runExpectation {World JudgeClient} _ _ _ _ _ _ _.
Arguments next {World A B} _ _.
Arguments runCase {World JudgeClient} _ _ _ _ _.
Arguments runCases {World JudgeClient} _ _ _ _ _ _.
Arguments runEvalDataset {World JudgeClient} _ _ _ _.

(** Every value the tool call of [context] throws has a message the runner
    can read: it is an [Error], or [String] converts it. *)
Definition toolThrowsConvertible {World JudgeClient : Type}
    (context : EvalExpectationContext World JudgeClient) : Prop :=
  forall name args w err w',
    callTool (mcp context) name args w = (Threw err, w') ->
    is_returned (ToString_message err) = true.

(** Every value thrown by an expectation enabled under one of the keys the
    runner reads is one [String] converts. *)
Definition expectationsThrowConvertible {World JudgeClient : Type}
    (options : EvalRunnerOptions World JudgeClient) : Prop :=
  forall key label f, In (key, label) kinds ->
    expectations options !! key = Some f ->
    forall enrichedContext evalCase response w err w',
      f enrichedContext evalCase response w = (Threw err, w') ->
      is_returned (ToString_thrown err) = true.

End StrictRunner.

(** ** A small concrete setting

    A world that is just a clock, a tool server with two tools, and a
    literal-substring pattern engine; used to run the definitions. *)

Module Demo.
Import Runner.

(** Patterns are literal substrings; a pattern with an opening parenthesis
    is rejected as an unterminated group. *)
#[export] Instance literalEngine : RegExpEngine := {|
  RegExp := string;
  RegExp_new pattern _flags :=
    if includes pattern "("
    then Threw (ThrownError "SyntaxError" "Unterminated group")
    else Returned pattern;
  RegExp_test regex text := includes text regex
|}.

Definition World : Type := Z.
Definition JudgeClient : Type := unit.
Definition now (w : World) : Z := w.

Definition textBlock (t : string) : JsValue :=
  JObj [("type", JStr "text"); ("text", JStr t)].

(** [echo] answers with its [text] argument in one text block (every call
    takes 7 ms); any other tool name throws [Error(name of the tool)]
    after 1 ms, except [silent], which throws an [Error] without message. *)
Definition server : MCPFixtureApi World :=
  {| callTool name args w :=
       if String.eqb name "echo" then
         (Returned {| content := JArr [textBlock (as_string (prop "text" args))];
                      structuredContent := JUndefined;
                      isError := Some false |}, (w + 7)%Z)
       else if String.eqb name "silent" then
         (Threw (ThrownError "Error" ""), (w + 1)%Z)
       else (Threw (ThrownError "Error" name), (w + 1)%Z) |}.

Definition context : EvalExpectationContext World JudgeClient :=
  {| mcp := server; judgeClient := None |}.

Definition mkCase (id tool text : string) : EvalCase :=
  {| ec_id := id; ec_description := None; ec_toolName := tool;
     ec_args := [("text", JStr text)];
     ec_expectedExact := JUndefined; ec_expectedSchemaName := None;
     ec_judgeConfigId := None; ec_expectedTextContains := None;
     ec_expectedRegex := None; ec_expectedError := JUndefined;
     ec_metadata := None |}.

Definition withTextContains (c : EvalCase) (x : StringOrList) : EvalCase :=
  {| ec_id := ec_id c; ec_description := ec_description c;
     ec_toolName := ec_toolName c; ec_args := ec_args c;
     ec_expectedExact := ec_expectedExact c;
     ec_expectedSchemaName := ec_expectedSchemaName c;
     ec_judgeConfigId := ec_judgeConfigId c;
     ec_expectedTextContains := Some x;
     ec_expectedRegex := ec_expectedRegex c;
     ec_expectedError := ec_expectedError c;
     ec_metadata := ec_metadata c |}.

Definition withRegex (c : EvalCase) (x : StringOrList) : EvalCase :=
  {| ec_id := ec_id c; ec_description := ec_description c;
     ec_toolName := ec_toolName c; ec_args := ec_args c;
     ec_expectedExact := ec_expectedExact c;
     ec_expectedSchemaName := ec_expectedSchemaName c;
     ec_judgeConfigId := ec_judgeConfigId c;
     ec_expectedTextContains := ec_expectedTextContains c;
     ec_expectedRegex := Some x;
     ec_expectedError := ec_expectedError c;
     ec_metadata := ec_metadata c |}.

Definition Expectation : Type := EvalExpectation World JudgeClient.

(** An expectation that accepts everything, one that always throws. *)
Definition accepting : Expectation :=
  fun _ _ _ => async (Returned {| er_pass := true; er_details := None |}).
Definition throwing (message : string) : Expectation :=
  fun _ _ _ => async (Threw (ThrownError "Error" message)).
Definition textContainsExpectation : Expectation :=
  fun _ evalCase response =>
    async (createTextContainsExpectation true evalCase response).

Definition mkOptions (cases : list EvalCase) (exps : gmap string Expectation)
    (stop : option bool) : EvalRunnerOptions World JudgeClient :=
  {| dataset := {| ds_name := "demo"; ds_description := None;
                   ds_cases := cases; ds_metadata := None |};
     expectations := exps;
     o_judgeClient := None;
     stopOnFailure := stop;
     onCaseComplete := None |}.

Definition start : RunState World := {| world := 0%Z; calls := [] |}.

(** A case whose tool call throws an [Error] with an empty message, run
    with an accepting [exact] expectation. *)
Definition silentCase : EvalCase := mkCase "x" "silent" "".
Definition silentOptions : EvalRunnerOptions World JudgeClient :=
  mkOptions [silentCase] {["exact" := accepting]} None.

(** A case that asks for text the tool does not answer, run with the
    [textContains] expectation enabled next to [exact]. *)
Definition greetingCase : EvalCase :=
  withTextContains (mkCase "greeting" "echo" "hi") (OneString "bye").
Definition greetingOptions : EvalRunnerOptions World JudgeClient :=
  mkOptions [greetingCase]
    (<["textContains" := textContainsExpectation]> {["exact" := accepting]}) None.

(** A case run with a throwing [exact] and an accepting [judge]. *)
Definition faultyOptions : EvalRunnerOptions World JudgeClient :=
  mkOptions [mkCase "A" "echo" "hi"]
    (<["judge" := accepting]> {["exact" := throwing "bad config"]}) None.

(** [{toString: 1}]: an object whose own [toString] is not a function. *)
Definition unprintable : JsValue := JObj [("toString", JNum 1)].

(** An expectation that throws a value that is not an [Error]. *)
Definition throwingValue (v : JsValue) : Expectation :=
  fun _ _ _ => async (Threw (ThrownValue v)).

(** The same case run with an [exact] that throws [{toString: 1}] and an
    accepting [judge]. *)
Definition unprintableOptions : EvalRunnerOptions World JudgeClient :=
  mkOptions [mkCase "A" "echo" "hi"]
    (<["judge" := accepting]> {["exact" := throwingValue unprintable]}) None.

(** The run [A (pass), B (fail), C (pass)] with [stopOnFailure]. *)
Definition abc : list EvalCase :=
  [mkCase "A" "echo" "hi"; mkCase "B" "x" "hi"; mkCase "C" "echo" "hi"].

Definition abcOptions : EvalRunnerOptions World JudgeClient :=
  mkOptions abc {["exact" := accepting]} (Some true).

(** A wrapped result whose only content block is an image. *)
Definition imageOnly : JsValue :=
  JObj [("content", JArr [JObj [("type", JStr "image"); ("data", JStr "iVBOR")]])].

(** The first example of the documentation of the error expectation, as a
    raw case object, and a response of a call that did not fail. *)
Definition errorCaseObject : JsValue :=
  JObj [("id", JStr "search-missing-query"); ("toolName", JStr "search");
        ("args", JObj []); ("expectedError", JBool true)].

Definition successResponse : JsValue :=
  JObj [("content", JArr [textBlock "3 results"]); ("isError", JBool false)].

Definition errorResponse : JsValue :=
  JObj [("content", JArr [textBlock "Query is REQUIRED"]); ("isError", JBool true)].

(** An array holding a BigInt. *)
Definition bigintArray : JsValue := JArr [JBigInt 10].

(** [[{type: "text", text: {toString: 1}}]] *)
Definition unprintableText : JsValue :=
  JArr [JObj [("type", JStr "text"); ("text", unprintable)]].

End Demo.

(** ** textUtils.ts: whitespace *)

Module Whitespace.

(** The characters matched by [\s] and removed by [trim], among 8-bit code
    units: tab, line feed, vertical tab, form feed, carriage return, space
    and no-break space. *)
Definition is_space (c : ascii) : bool :=
  let n := nat_of_ascii c in
  (Nat.leb 9 n && Nat.leb n 13) || Nat.eqb n 32 || Nat.eqb n 160.

(** [text.replace(/\s+/g, ' ')]; [inRun] tells that the previous character
    belonged to the run of whitespace being replaced. *)
Fixpoint replaceRuns (inRun : bool) (text : string) : string :=
  match text with
  | EmptyString => EmptyString
  | String c rest =>
      if is_space c then
        if inRun then replaceRuns true rest
        else String " " (replaceRuns true rest)
      else String c (replaceRuns false rest)
  end.

Fixpoint trimStart (text : string) : string :=
  match text with
  | EmptyString => EmptyString
  | String c rest => if is_space c then trimStart rest else text
  end.

Fixpoint trimEnd (text : string) : string :=
  match text with
  | EmptyString => EmptyString
  | String c rest =>
      match trimEnd rest with
      | EmptyString => if is_space c then EmptyString else String c EmptyString
      | kept => String c kept
      end
  end.

(** [text.trim()] *)
Definition trim (text : string) : string := trimEnd (trimStart text).

Definition normalizeWhitespace (text : string) : string :=
  trim (replaceRuns false text).

(** Every whitespace character of the text is a plain space that follows a
    character other than whitespace; [afterSpace] tells that the text
    starts right after a whitespace character (or at the very start). *)
Fixpoint singleSpaced (afterSpace : bool) (text : string) : bool :=
  match text with
  | EmptyString => true
  | String c rest =>
      if is_space c
      then negb afterSpace && Ascii.eqb c " " && singleSpaced true rest
      else singleSpaced false rest
  end.

Fixpoint endsWithSpace (text : string) : bool :=
  match text with
  | EmptyString => false
  | String c EmptyString => is_space c
  | String _ rest => endsWithSpace rest
  end.

(** A text in normal form: no whitespace at either end, and inside only
    single plain spaces. *)
Definition tidy (text : string) : bool :=
  singleSpaced true text && negb (endsWithSpace text).

End Whitespace.

(** ** schemaExpectation.ts *)

Module SchemaExpectation.

(** A step of the path of an issue: a property name or an array index. *)
Inductive PathKey : Type :=
| PathName (name : string)
| PathIndex (index : Z).

Definition PathKey_String (key : PathKey) : string :=
  match key with
  | PathName name => name
  | PathIndex index => pretty index
  end.

(** One issue of a [ZodError]. *)
Record ZodIssue : Type := {
  issue_path : list PathKey;
  issue_message : string
}.

(** What [schema.parse(response)] does: it returns, throws a [ZodError]
    with its issues, or throws something else. *)
Inductive ParseOutcome : Type :=
| Parsed
| Invalid (issues : list ZodIssue)
| Crashed (error : JsThrown).

Definition ZodSchema : Type := JsValue -> ParseOutcome.

(** The property names every plain object inherits from
    [Object.prototype]: [registry[name]] finds a function (or the
    prototype itself) under these names even when the registry does not
    define them. *)
Definition objectPrototypeKeys : list string :=
  ["constructor"; "toString"; "toLocaleString"; "valueOf"; "hasOwnProperty";
   "isPrototypeOf"; "propertyIsEnumerable"; "__proto__"; "__defineGetter__";
   "__defineSetter__"; "__lookupGetter__"; "__lookupSetter__"].

Definition inherited (name : string) : bool :=
  existsb (String.eqb name) objectPrototypeKeys.

(** [`  - ${issue.path.join('.')}: ${issue.message}`] *)
Definition issueLine (issue : ZodIssue) : string :=
  "  - " +:+ String.concat "." (List.map PathKey_String (issue_path issue))
  +:+ ": " +:+ issue_message issue.

(** [createSchemaExpectation(dataset)]; of the dataset only [schemas] is
    read ([None] when the dataset has no such field).  Under a name that
    the registry does not define but inherits, [schema] is an object
    without [parse], and calling it throws a [TypeError] inside the [try].
    The [catch] block renders an error that is not a [ZodError] with
    [String(error)]; when that conversion throws, the expectation throws. *)
Definition createSchemaExpectation
    (schemas : option (gmap string ZodSchema))
    (evalCase : EvalCase) (response : JsValue)
  : Outcome EvalExpectationResult :=
  match ec_expectedSchemaName evalCase with
  | None =>
      Returned {| er_pass := true;
                  er_details := Some "No expectedSchemaName defined, skipping" |}
  | Some name =>
      if String.eqb name "" then
        Returned {| er_pass := true;
                    er_details := Some "No expectedSchemaName defined, skipping" |}
      else
        match schemas ≫= (fun m => m !! name) with
        | None =>
            if match schemas with Some _ => inherited name | None => false end then
              Returned {| er_pass := false;
                          er_details := Some
                            ("Unexpected error during schema validation: "
                             +:+ Thrown_String
                                   (ThrownError "TypeError"
                                      "schema.parse is not a function")) |}
            else
              Returned {| er_pass := false;
                          er_details := Some
                            ("Schema " +:+ dq +:+ name +:+ dq
                             +:+ " not found in dataset.schemas") |}
        | Some schema =>
            match schema response with
            | Parsed =>
                Returned {| er_pass := true;
                            er_details := Some
                              ("Response conforms to schema " +:+ dq +:+ name +:+ dq) |}
            | Invalid issues =>
                Returned {| er_pass := false;
                            er_details := Some
                              ("Schema validation failed for " +:+ dq +:+ name
                               +:+ dq +:+ ":" +:+ nl
                               +:+ String.concat nl (List.map issueLine issues)) |}
            | Crashed error =>
                match ToString_thrown error with
                | Returned text =>
                    Returned {| er_pass := false;
                                er_details := Some
                                  ("Unexpected error during schema validation: "
                                   +:+ text) |}
                | Threw typeError => Threw typeError
                end
            end
        end
  end.

End SchemaExpectation.

(** ** datasetTypes.ts and datasetLoader.ts: datasets *)

Module DatasetLoader.
Import SchemaExpectation.

(** The property [k] of [ps] as the output of an object parse keeps it. *)
Definition kept (k : string) (ps : list (string * JsValue)) : list (string * JsValue) :=
  match own k ps with
  | Some v => [(k, v)]
  | None => []
  end.

(** [z.array(EvalCaseSchema).min(1, ...)]: every element is parsed as a
    case, and there is at least one. *)
Definition parseCases (v : JsValue) : option (list (list (string * JsValue))) :=
  match v with
  | JArr elems =>
      parsed ← mapM (z_object_parse EvalCaseSchema) elems;
      if Nat.leb 1 (length parsed) then Some parsed else None
  | _ => None
  end.

(** [validateEvalDataset]: [EvalDatasetSchema.parse(dataset)]; the output
    has the keys [name], [description], [cases], [metadata] that the input
    has, with every case parsed; [None] stands for a thrown [ZodError]. *)
Definition validateEvalDataset (dataset : JsValue)
  : option (list (string * JsValue)) :=
  match dataset with
  | JObj ps =>
      if z_string_min1 (prop "name" ps)
         && z_optional z_string (prop "description" ps)
         && z_optional z_record_unknown (prop "metadata" ps)
      then
        cases ← parseCases (prop "cases" ps);
        Some (kept "name" ps ++ kept "description" ps
              ++ [("cases", JArr (List.map JObj cases))]
              ++ kept "metadata" ps)
      else None
  | _ => None
  end.

(** [{ ...value }]: the own enumerable properties of a value; an array
    spreads to its indices, a string to its characters, other primitives to
    nothing. *)
Definition spread (v : JsValue) : list (string * JsValue) :=
  match v with
  | JObj ps => ps
  | JArr l => imap (fun i e => (pretty i, e)) l
  | JStr s => imap (fun i c => (pretty i, JStr (String c EmptyString))) (list_ascii_of_string s)
  | _ => []
  end.

(** The loaded dataset: the properties of the serialized dataset, and the
    [schemas] attached by the loader. *)
Record LoadedDataset : Type := {
  ld_props : list (string * JsValue);
  ld_schemas : gmap string ZodSchema
}.

(** [loadEvalDatasetFromObject(data, { schemas, validate })] with
    [validate] defaulting to [true]:
    [{ ...serializedDataset, schemas: schemas ?? {} }]. *)
Definition loadEvalDatasetFromObject
    (data : JsValue) (schemas : option (gmap string ZodSchema))
    (validate : option bool)
  : option LoadedDataset :=
  serializedDataset ←
    (if default true validate then JObj <$> validateEvalDataset data else Some data);
  Some {| ld_props :=
            List.filter (fun kv => negb (String.eqb (fst kv) "schemas"))
                        (spread serializedDataset);
          ld_schemas := default ∅ schemas |}.

(** [dataset.cases], read as cases (no case when [cases] is not an array:
    such a dataset cannot be iterated). *)
Definition casesOf (d : LoadedDataset) : list EvalCase :=
  match prop "cases" (ld_props d) with
  | JArr elems => List.map (fun e => EvalCase_of_object (as_record e)) elems
  | _ => []
  end.

(** The dataset as the runner reads it. *)
Definition toEvalDataset (d : LoadedDataset) : Runner.EvalDataset :=
  {| Runner.ds_name := as_string (prop "name" (ld_props d));
     Runner.ds_description := as_optional_string (prop "description" (ld_props d));
     Runner.ds_cases := casesOf d;
     Runner.ds_metadata := as_optional_record (prop "metadata" (ld_props d)) |}.

(** A case without its [expectedError] directive. *)
Definition withoutExpectedError (c : EvalCase) : EvalCase :=
  {| ec_id := ec_id c; ec_description := ec_description c;
     ec_toolName := ec_toolName c; ec_args := ec_args c;
     ec_expectedExact := ec_expectedExact c;
     ec_expectedSchemaName := ec_expectedSchemaName c;
     ec_judgeConfigId := ec_judgeConfigId c;
     ec_expectedTextContains := ec_expectedTextContains c;
     ec_expectedRegex := ec_expectedRegex c;
     ec_expectedError := JUndefined;
     ec_metadata := ec_metadata c |}.

End DatasetLoader.

(** ** The calls of a run, by collaborator *)

Module RunnerTrace.
Import Runner.

(** The tool calls of a log, in order, each with its name and arguments. *)
Definition toolCalls (cs : list Call) : list (string * list (string * JsValue)) :=
  List.flat_map (fun c => match c with
                          | CallTool name args => [(name, args)]
                          | _ => []
                          end) cs.

(** The case ids handed to the completion callback, in order. *)
Definition callbackCalls (cs : list Call) : list string :=
  List.flat_map (fun c => match c with
                          | CallOnCaseComplete id => [id]
                          | _ => []
                          end) cs.

End RunnerTrace.

(** ** spec/conformanceChecks.ts *)

Module Conformance.
Import Runner.

(** JavaScript truthiness. *)
Definition truthy_value (v : JsValue) : bool :=
  match v with
  | JUndefined | JNull => false
  | JBool b => b
  | JNum n | JBigInt n => negb (Z.eqb n 0)
  | JStr s => negb (String.eqb s "")
  | JArr _ | JObj _ => true
  end.

(** [v.k] for a value that is neither [null] nor [undefined]: only an
    object literal has own properties here. *)
Definition member (k : string) (v : JsValue) : JsValue :=
  match v with
  | JObj ps => prop k ps
  | _ => JUndefined
  end.

(** A tool as the server lists it; a malformed server may leave out or
    mistype either field. *)
Record Tool : Type := {
  tool_name : JsValue;
  tool_inputSchema : JsValue
}.

Record ServerInfo : Type := {
  si_name : option string;
  si_version : option string
}.

Section Checks.
Variable World : Type.

(** The part of [MCPFixtureApi] that the conformance checks use. *)
Record MCPFixtureFull : Type := {
  fixture : MCPFixtureApi World;
  listTools : Async World (list Tool);
  getServerInfo : World -> option ServerInfo
}.

Record MCPConformanceOptions : Type := {
  requiredTools : option (list string);
  validateSchemas : option bool;
  checkServerInfo : option bool
}.

Record Check : Type := {
  check_name : string;
  check_pass : bool;
  check_message : string
}.

Record MCPConformanceResult : Type := {
  conf_pass : bool;
  conf_checks : list Check
}.

(** Check 1 *)
Definition serverInfoCheck (serverInfo : option ServerInfo) : Check :=
  {| check_name := "server_info_present";
     check_pass := match serverInfo with Some _ => true | None => false end;
     check_message :=
       match serverInfo with
       | Some info =>
           "Server info: " +:+ default "unknown" (si_name info)
           +:+ " v" +:+ default "unknown" (si_version info)
       | None => "Server info is missing"
       end |}.

(** [toolNames.has(name)] for [toolNames = new Set(tools.map((t) => t.name))] *)
Definition listed (tools : list Tool) (name : string) : bool :=
  existsb (fun t => match tool_name t with
                    | JStr s => String.eqb s name
                    | _ => false
                    end) tools.

(** Check 3 *)
Definition requiredToolsCheck (tools : list Tool) (required : list string) : Check :=
  let missingTools := List.filter (fun name => negb (listed tools name)) required in
  {| check_name := "required_tools_present";
     check_pass := Nat.eqb (length missingTools) 0;
     check_message :=
       if Nat.eqb (length missingTools) 0
       then "All " +:+ pretty (length required) +:+ " required tools are present"
       else "Missing required tools: " +:+ String.concat ", " missingTools |}.

(** The body of the loop of check 4: the complaint about one tool, if any. *)
Definition toolComplaint (tool : Tool) : list string :=
  if negb (truthy_value (tool_name tool)) then
    ["(unnamed tool): missing name"]
  else if negb (truthy_value (tool_inputSchema tool)) then
    [JS_String (tool_name tool) +:+ ": missing inputSchema"]
  else
    let type := member "type" (tool_inputSchema tool) in
    if negb (match type with JStr t => String.eqb t "object" | _ => false end) then
      [JS_String (tool_name tool) +:+ ": inputSchema.type must be "
       +:+ dq +:+ "object" +:+ dq +:+ ", got " +:+ dq +:+ JS_String type +:+ dq]
    else [].

(** Check 4 *)
Definition schemasCheck (tools : list Tool) : Check :=
  let invalidTools := List.flat_map toolComplaint tools in
  {| check_name := "tool_schemas_valid";
     check_pass := Nat.eqb (length invalidTools) 0;
     check_message :=
       if Nat.eqb (length invalidTools) 0
       then "All " +:+ pretty (length tools) +:+ " tools have valid schemas"
       else "Invalid tool schemas:" +:+ nl +:+ "  "
            +:+ String.concat (nl +:+ "  ") invalidTools |}.

(** Check 5 *)
Definition invalidToolCheck (called : Outcome CallToolResult) : Check :=
  match called with
  | Returned result =>
      let hasError := match isError result with Some true => true | _ => false end in
      {| check_name := "invalid_tool_returns_error";
         check_pass := hasError;
         check_message :=
           if hasError
           then "Nonexistent tool correctly returned an error"
           else "Calling nonexistent tool should have returned an error" |}
  | Threw _ =>
      {| check_name := "invalid_tool_returns_error";
         check_pass := true;
         check_message := "Nonexistent tool correctly threw an error" |}
  end.

Definition runConformanceChecks
    (mcp : MCPFixtureFull) (options : MCPConformanceOptions) (w : World)
  : MCPConformanceResult * World :=
  let required := default [] (requiredTools options) in
  let checks :=
    if default true (checkServerInfo options)
    then [serverInfoCheck (getServerInfo mcp w)]
    else [] in
  let '(tools, w1) := listTools mcp w in
  match tools with
  | Threw error =>
      ({| conf_pass := false;
          conf_checks :=
            checks ++ [{| check_name := "list_tools_succeeds";
                          check_pass := false;
                          check_message :=
                            "listTools failed: " +:+ Thrown_message error |}] |},
       w1)
  | Returned tools =>
      let checks :=
        checks ++ [{| check_name := "list_tools_succeeds";
                      check_pass := true;
                      check_message :=
                        "listTools returned " +:+ pretty (length tools)
                        +:+ " tools" |}] in
      let checks :=
        if Nat.ltb 0 (length required)
        then checks ++ [requiredToolsCheck tools required]
        else checks in
      let checks :=
        if default true (validateSchemas options) && Nat.ltb 0 (length tools)
        then checks ++ [schemasCheck tools]
        else checks in
      let '(called, w2) := callTool (fixture mcp) "__nonexistent_tool__" [] w1 in
      let checks := checks ++ [invalidToolCheck called] in
      ({| conf_pass := forallb check_pass checks; conf_checks := checks |}, w2)
  end.

End Checks.

Arguments fixture {World} _.
Arguments listTools {World} _ _.
Arguments getServerInfo {World} _ _.
Arguments runConformanceChecks {World} _ _ _.

(** A tool that check 4 accepts: a truthy name, a truthy input schema
    whose [type] is the string [object]. *)
Definition wellFormed (tool : Tool) : bool :=
  truthy_value (tool_name tool)
  && truthy_value (tool_inputSchema tool)
  && match member "type" (tool_inputSchema tool) with
     | JStr t => String.eqb t "object"
     | _ => false
     end.

End Conformance.

(** ** judgeExpectation.ts *)

Module JudgeExpectation.
Import Runner SchemaExpectation.

Section Judge.
Variable World : Type.
Variable JudgeClient : Type.

(** Scores and thresholds are numbers of the host; the expectation
    compares them with [>=] and prints them, nothing else. *)
Variable Number : Type.
Variable Number_ge : Number -> Number -> bool.
(** [1.0], [0.0] and the default threshold [0.7] *)
Variable one zero defaultThreshold : Number.
(** [score.toFixed(2)] and [`${threshold}`] *)
Variable toFixed2 : Number -> string.
Variable Number_String : Number -> string.

(** [LLMJudgeResult] *)
Record LLMJudgeResult : Type := {
  jr_pass : bool;
  jr_score : option Number;
  jr_reasoning : option string
}.

(** [judgeClient.evaluate(candidate, reference, rubric)]; the rubric is a
    string for every declared configuration. *)
Variable evaluate :
  JudgeClient -> JsValue -> JsValue -> JsValue -> Async World LLMJudgeResult.

(** One entry of [JudgeConfigs], as the expectation reads it; [reference]
    is [JUndefined] when absent. *)
Record JudgeConfig : Type := {
  rubric : JsValue;
  reference : JsValue;
  passingThreshold : option Number
}.

(** [judgeConfigs[id]]: the declared configuration, or, under a name
    inherited from [Object.prototype], an object that has none of the three
    fields; [None] when the lookup gives [undefined]. *)
Definition lookupConfig (judgeConfigs : gmap string JudgeConfig) (id : string)
  : option JudgeConfig :=
  match judgeConfigs !! id with
  | Some config => Some config
  | None =>
      if inherited id
      then Some {| rubric := JUndefined; reference := JUndefined;
                   passingThreshold := None |}
      else None
  end.

(** The result built from the answer of the judge. *)
Definition judged (config : JudgeConfig) (result : LLMJudgeResult)
  : EvalExpectationResult :=
  let threshold := default defaultThreshold (passingThreshold config) in
  let score := default (if jr_pass result then one else zero) (jr_score result) in
  let pass := Number_ge score threshold in
  {| er_pass := pass;
     er_details := Some
       (String.concat nl
          (["Judge: " +:+ (if pass then "PASS" else "FAIL");
            "Score: " +:+ toFixed2 score +:+ " (threshold: "
            +:+ Number_String threshold +:+ ")"]
           ++ match jr_reasoning result with
              | Some reasoning =>
                  if String.eqb reasoning "" then []
                  else ["Reasoning: " +:+ reasoning]
              | None => []
              end)) |}.

(** The [catch] block renders what the judge threw with [String(error)];
    when that conversion throws, the expectation throws. *)
Definition createJudgeExpectation (judgeConfigs : gmap string JudgeConfig)
  : EvalExpectation World JudgeClient :=
  fun context evalCase response w =>
    match ec_judgeConfigId evalCase with
    | None =>
        (Returned {| er_pass := true;
                     er_details := Some "No judgeConfigId defined, skipping" |}, w)
    | Some id =>
        if String.eqb id "" then
          (Returned {| er_pass := true;
                       er_details := Some "No judgeConfigId defined, skipping" |}, w)
        else
          match judgeClient context with
          | None =>
              (Returned {| er_pass := false;
                           er_details := Some "No judgeClient available in context" |},
               w)
          | Some client =>
              match lookupConfig judgeConfigs id with
              | None =>
                  (Returned {| er_pass := false;
                               er_details := Some
                                 ("Judge config " +:+ dq +:+ id +:+ dq
                                  +:+ " not found") |}, w)
              | Some config =>
                  let reference :=
                    match ec_expectedExact evalCase with
                    | JUndefined => reference config
                    | expected => expected
                    end in
                  let '(answered, w') :=
                    evaluate client response (nullish_coalesce reference JNull)
                             (rubric config) w in
                  match answered with
                  | Returned result => (Returned (judged config result), w')
                  | Threw error =>
                      match ToString_thrown error with
                      | Returned text =>
                          (Returned {| er_pass := false;
                                       er_details := Some
                                         ("Judge evaluation failed: " +:+ text) |},
                           w')
                      | Threw typeError => (Threw typeError, w')
                      end
                  end
              end
          end
    end.

End Judge.

Arguments jr_pass {Number} _.
Arguments jr_score {Number} _.
Arguments jr_reasoning {Number} _.
Arguments rubric {Number} _.
Arguments reference {Number} _.
Arguments passingThreshold {Number} _.
Arguments lookupConfig {Number} _ _.
Arguments createJudgeExpectation {World JudgeClient Number} _ _ _ _ _ _ _ _ _ _ _ _.

End JudgeExpectation.

(** ** The expectation suggester: text-contains suggestions *)

Module Suggester.

(** [text.matchAll(/source/flags)] of the host: the matches in order, each
    as the list of its groups, the whole match first. *)
Class RegExpLiterals := {
  matchAll : string -> string -> string -> list (list string)
}.

(** [`${match[i]}`] *)
Definition group (i : nat) (m : list string) : string := nth i m "undefined".

(** [text.split('\n')[0]] *)
Fixpoint firstLine (text : string) : string :=
  match text with
  | EmptyString => EmptyString
  | String c rest =>
      if Nat.eqb (nat_of_ascii c) 10 then EmptyString
      else String c (firstLine rest)
  end.

(** [[...new Set(xs)]]: the first occurrence of each element, in order. *)
Fixpoint uniqueFrom (seen xs : list string) : list string :=
  match xs with
  | [] => []
  | x :: rest =>
      if existsb (String.eqb x) seen then uniqueFrom seen rest
      else x :: uniqueFrom (x :: seen) rest
  end.

Definition unique (xs : list string) : list string := uniqueFrom [] xs.

(** [if (xs.length > 0 && xs.length <= 5) suggestions.push(...xs.slice(0, 3))] *)
Definition fewOf (xs : list string) : list string :=
  if Nat.ltb 0 (length xs) && Nat.leb (length xs) 5 then take 3 xs else [].

Section Suggest.
Context {literals : RegExpLiterals}.

Definition headerSuggestions (text : string) : list string :=
  List.map (fun m => group 1 m +:+ " " +:+ group 2 m)
           (matchAll "^(#{1,6})\s+(.+)$" "gm" text).

Definition boldTexts (text : string) : list string :=
  List.map (group 0) (matchAll "\*\*([^*]+)\*\*" "g" text).

Definition kvPairs (text : string) : list string :=
  List.map (group 0) (matchAll "^([A-Z][a-z\s]+):\s*(.+)$" "gm" text).

(** [suggestTextContains(text, _tool)]; the tool is not used. *)
Definition suggestTextContains (text : string) : list string :=
  let suggestions :=
    headerSuggestions text ++ fewOf (boldTexts text) ++ fewOf (kvPairs text) in
  let suggestions :=
    if Nat.eqb (length suggestions) 0 && Nat.ltb 10 (String.length text) then
      let first := firstLine text in
      if Nat.ltb 0 (String.length first)
      then suggestions ++ [String.substring 0 50 first]
      else suggestions
    else suggestions in
  unique suggestions.

End Suggest.

End Suggester.

(** ** More concrete runs *)

Module MoreDemo.
Import Runner Demo.

(** The three cases [A], [B] (whose tool throws), [C] without
    [stopOnFailure], and with a callback that advances the clock. *)
Definition abcAllOptions : EvalRunnerOptions World JudgeClient :=
  mkOptions abc {["exact" := accepting]} None.

Definition ticking : EvalCaseResult -> Async World unit :=
  fun _ w => (Returned tt, (w + 1)%Z).

Definition abcNotifiedOptions : EvalRunnerOptions World JudgeClient :=
  {| dataset := dataset abcOptions;
     expectations := expectations abcOptions;
     o_judgeClient := None;
     stopOnFailure := Some true;
     onCaseComplete := Some ticking |}.

(** Only [textContains] enabled, for the case that asks for missing text. *)
Definition textOnlyOptions : EvalRunnerOptions World JudgeClient :=
  mkOptions [greetingCase] {["textContains" := textContainsExpectation]} None.

Definition echoed (text : string) : CallToolResult :=
  {| content := JArr [textBlock text];
     structuredContent := JUndefined;
     isError := Some false |}.

(** A server that lists [echo] with an object schema, and one whose
    listing fails. *)
Definition echoTool : Conformance.Tool :=
  {| Conformance.tool_name := JStr "echo";
     Conformance.tool_inputSchema := JObj [("type", JStr "object")] |}.

Definition conformingServer : Conformance.MCPFixtureFull World :=
  {| Conformance.fixture := server;
     Conformance.listTools := fun w => (Returned [echoTool], (w + 2)%Z);
     Conformance.getServerInfo :=
       fun _ => Some {| Conformance.si_name := Some "demo";
                        Conformance.si_version := None |} |}.

Definition unlistableServer : Conformance.MCPFixtureFull World :=
  {| Conformance.fixture := server;
     Conformance.listTools :=
       fun w => (Threw (ThrownError "Error" "connection closed"), (w + 2)%Z);
     Conformance.getServerInfo := fun _ => None |}.

Definition requireEcho : Conformance.MCPConformanceOptions :=
  {| Conformance.requiredTools := Some ["echo"];
     Conformance.validateSchemas := None;
     Conformance.checkServerInfo := None |}.

(** A judge that scores in hundredths: it accepts every candidate, without
    a score, after 3 ms. *)
Definition lenientJudge
  : JudgeClient -> JsValue -> JsValue -> JsValue
    -> Async World (JudgeExpectation.LLMJudgeResult Z) :=
  fun _ _ _ _ w =>
    (Returned {| JudgeExpectation.jr_pass := true;
                 JudgeExpectation.jr_score := None;
                 JudgeExpectation.jr_reasoning := Some "fine" |}, (w + 3)%Z).

Definition judgeConfigs : gmap string (JudgeExpectation.JudgeConfig Z) :=
  {["quality" := {| JudgeExpectation.rubric := JStr "Is it polite?";
                    JudgeExpectation.reference := JUndefined;
                    JudgeExpectation.passingThreshold := None |}]}.

Definition judgedCase : EvalCase :=
  {| ec_id := "j"; ec_description := None; ec_toolName := "echo";
     ec_args := [("text", JStr "hi")];
     ec_expectedExact := JUndefined; ec_expectedSchemaName := None;
     ec_judgeConfigId := Some "quality"; ec_expectedTextContains := None;
     ec_expectedRegex := None; ec_expectedError := JUndefined;
     ec_metadata := None |}.

Definition judgingContext : EvalExpectationContext World JudgeClient :=
  {| mcp := server; judgeClient := Some tt |}.

(** A matcher that finds nothing, and one that finds seven bold spans. *)
Definition noMatches : Suggester.RegExpLiterals :=
  {| Suggester.matchAll := fun _ _ _ => [] |}.

Definition sevenBold : Suggester.RegExpLiterals :=
  {| Suggester.matchAll := fun source _ _ =>
       if String.eqb source "\*\*([^*]+)\*\*"
       then List.map (fun t => ["**" +:+ t +:+ "**"; t])
                     ["a"; "b"; "c"; "d"; "e"; "f"; "g"]
       else [] |}.

End MoreDemo.

(** * Properties *)

(** ** Text extraction *)

Module TextFacts.
Import Demo.

(** Structural induction on values, with the induction hypothesis
    available for every element and every property value. *)
Lemma JsValue_nested_ind (P : JsValue -> Prop) :
  P JUndefined -> P JNull -> (forall b, P (JBool b)) -> (forall n, P (JNum n)) ->
  (forall n, P (JBigInt n)) -> (forall s, P (JStr s)) ->
  (forall l, Forall P l -> P (JArr l)) ->
  (forall ps, Forall (fun kv => P (snd kv)) ps -> P (JObj ps)) ->
  forall v, P v.
Proof.
  intros Hu Hn Hb Hz Hg Hs Ha Ho.
  fix IH 1. intros [ | | b | n | n | s | l | ps].
  - exact Hu.
  - exact Hn.
  - apply Hb.
  - apply Hz.
  - apply Hg.
  - apply Hs.
  - apply Ha. induction l as [|e l IHl]; constructor; [apply IH | exact IHl].
  - apply Ho. induction ps as [|[k e] ps IHps]; constructor; [apply IH | exact IHps].
Qed.

(** [JSON.stringify] answers [undefined] for [undefined] only. *)
Lemma JSON_serialize_None v : JSON_serialize v = Returned None -> v = JUndefined.
Proof.
  destruct v as [ | | [|] | n | n | s | l | ps]; simpl; try discriminate; auto.
  - match goal with |- context [match ?x with Returned _ => _ | Threw _ => _ end] =>
      destruct x end; discriminate.
  - match goal with |- context [match ?x with Returned _ => _ | Threw _ => _ end] =>
      destruct x end; discriminate.
Qed.

Lemma JSON_stringify_string v r :
  v <> JUndefined -> JSON_stringify v = Returned r -> exists s, r = JStr s.
Proof.
  intros Hv. unfold JSON_stringify.
  destruct (JSON_serialize v) as [[t|]|e] eqn:E; intros H; inversion H; subst.
  - eauto.
  - apply JSON_serialize_None in E. contradiction.
Qed.

Lemma joined_string parts r : joined parts = Returned r -> exists s, r = JStr s.
Proof.
  unfold joined. destruct (ToString_join nl parts); intros H; inversion H; eauto.
Qed.

(** Whatever the extractor returns is a string. *)
Lemma extractTextFromResponse_string response r :
  extractTextFromResponse response = Returned r -> exists s, r = JStr s.
Proof.
  destruct response as [ | | b | n | n | s | l | ps]; simpl;
    try (intros H; inversion H; eauto; fail).
  - destruct (Nat.ltb 0 (length (textParts l))).
    + apply joined_string.
    + apply JSON_stringify_string. discriminate.
  - match goal with |- context [match ?x with Some _ => _ | None => _ end] =>
      destruct x as [text|] eqn:Ec end.
    + destruct (prop "content" ps); try discriminate.
      destruct (Nat.ltb 0 (length (textParts elems))); inversion Ec.
      apply joined_string.
    + destruct (prop "structuredContent" ps) as [ | | b | n | n | s | l | qs] eqn:E;
        simpl;
        try (apply JSON_stringify_string; discriminate);
        try (intros H; inversion H; eauto; fail);
        destruct (prop "text" ps);
        try (apply JSON_stringify_string; discriminate);
        intros H; inversion H; eauto.
Qed.




(** C5, as the code has it: for an object response whose [content] is an
    array without any text block (no element is an object with [type]
    equal to [text] and a [text] property), the extractor does not
    serialize the [content] array; it goes on with the remaining object
    rules: a non-nullish [structuredContent] is returned when it is a string
    and JSON-serialized otherwise; else a string [text] field is returned;
    else the whole object is JSON-serialized. *)
Theorem extract_object_without_text_blocks
    (r : list (string * JsValue)) (l : list JsValue) :
  prop "content" r = JArr l ->
  (forall c, In c l -> is_text_block c = false) ->
  (forall s, prop "structuredContent" r = JStr s ->
     extractTextFromResponse (JObj r) = Returned (JStr s)) /\
  (is_nullish (prop "structuredContent" r) = false ->
   (forall s, prop "structuredContent" r <> JStr s) ->
     extractTextFromResponse (JObj r) = JSON_stringify (prop "structuredContent" r)) /\
  (is_nullish (prop "structuredContent" r) = true ->
   forall t, prop "text" r = JStr t ->
     extractTextFromResponse (JObj r) = Returned (JStr t)) /\
  (is_nullish (prop "structuredContent" r) = true ->
   (forall t, prop "text" r <> JStr t) ->
     extractTextFromResponse (JObj r) = JSON_stringify (JObj r)).
Proof.
  intros Hc Hl.
  assert (Hparts : textParts l = []).
  { unfold textParts. replace (List.filter is_text_block l) with (@nil JsValue); auto.
    symmetry. clear Hc. induction l as [|c l IH]; simpl; auto.
    rewrite (Hl c) by (left; reflexivity). apply IH. intros; apply Hl; right; auto. }
  unfold extractTextFromResponse. rewrite Hc, Hparts. simpl.
  repeat split.
  - intros s ->. reflexivity.
  - intros Hn Hs. rewrite Hn. simpl.
    destruct (prop "structuredContent" r); try reflexivity.
    exfalso. eapply Hs. reflexivity.
  - intros Hn t ->. rewrite Hn. reflexivity.
  - intros Hn Ht. rewrite Hn. simpl.
    destruct (prop "text" r); try reflexivity.
    exfalso. eapply Ht. reflexivity.
Qed.

Lemma extract_object_without_text_blocks_witness :
  extractTextFromResponse imageOnly = JSON_stringify imageOnly.
Proof.
  refine (proj2 (proj2 (proj2
    (extract_object_without_text_blocks
       [("content", JArr [JObj [("type", JStr "image"); ("data", JStr "iVBOR")]])]
       [JObj [("type", JStr "image"); ("data", JStr "iVBOR")]]
       eq_refl _))) eq_refl _).
  - intros c [<-|[]]. reflexivity.
  - intros t. simpl. discriminate.
Defined.

(** C5 as stated fails: an image-only [content] array is not what gets
    serialized; the whole response object is. *)
Lemma content_fallback_counterexample :
  (forall c, In c [JObj [("type", JStr "image"); ("data", JStr "iVBOR")]] ->
     spec_text_shape c = false) /\
  extractTextFromResponse imageOnly = JSON_stringify imageOnly /\
  extractTextFromResponse imageOnly
  <> JSON_stringify (JArr [JObj [("type", JStr "image"); ("data", JStr "iVBOR")]]) /\
  ~ (forall r l,
       prop "content" r = JArr l ->
       (forall c, In c l -> spec_text_shape c = false) ->
       extractTextFromResponse (JObj r) = JSON_stringify (JArr l)).
Proof.
  assert (Hshape : forall c,
             In c [JObj [("type", JStr "image"); ("data", JStr "iVBOR")]] ->
             spec_text_shape c = false)
    by (intros c [<-|[]]; reflexivity).
  assert (Hne : extractTextFromResponse imageOnly
                <> JSON_stringify (JArr [JObj [("type", JStr "image"); ("data", JStr "iVBOR")]]))
    by (vm_compute; discriminate).
  repeat split; auto.
  intros H. apply Hne.
  exact (H [("content", JArr [JObj [("type", JStr "image"); ("data", JStr "iVBOR")]])]
           [JObj [("type", JStr "image"); ("data", JStr "iVBOR")]] eq_refl Hshape).
Qed.

(** A conversion that returns gives the rendering [JS_String]; one that
    throws throws the [TypeError] of the conversion to a primitive. *)
Lemma ToString_elements_eq l :
  (fix elems (l : list JsValue) : Outcome (list string) :=
     match l with
     | [] => Returned []
     | e :: rest =>
         match (if is_nullish e then Returned "" else ToString e) with
         | Threw x => Threw x
         | Returned t =>
             match elems rest with
             | Threw x => Threw x
             | Returned parts => Returned (t :: parts)
             end
         end
     end) l = ToString_elements l.
Proof. induction l as [|e l IH]; simpl; [reflexivity | rewrite IH; reflexivity]. Qed.

Lemma ToString_JArr l : ToString (JArr l) = ToString_join "," l.
Proof. unfold ToString_join. simpl. rewrite ToString_elements_eq. reflexivity. Qed.

Lemma ToString_returns v s : ToString v = Returned s -> s = JS_String v.
Proof.
  revert s.
  induction v as [ | | [|] | n | n | t | l IH | ps IH] using JsValue_nested_ind;
    intros s; try (simpl; intros H; inversion H; reflexivity).
  - rewrite ToString_JArr. unfold ToString_join.
    destruct (ToString_elements l) as [parts|x] eqn:E; intros H; inversion H; subst.
    simpl. f_equal. clear H. revert parts E.
    induction IH as [|e l He _ IHl]; simpl; intros parts E.
    + inversion E. reflexivity.
    + destruct (is_nullish e) eqn:En.
      * destruct (ToString_elements l) as [ts|x]; inversion E; subst.
        f_equal. apply IHl. reflexivity.
      * destruct (ToString e) as [t|x] eqn:Et; [|discriminate].
        destruct (ToString_elements l) as [ts|x]; inversion E; subst.
        f_equal; [apply He; reflexivity | apply IHl; reflexivity].
  - simpl. destruct (has_key "toString" ps); intros H; inversion H; reflexivity.
Qed.

Lemma ToString_throws v e : ToString v = Threw e -> e = primitiveTypeError.
Proof.
  revert e.
  induction v as [ | | [|] | n | n | t | l IH | ps IH] using JsValue_nested_ind;
    intros x; try (simpl; discriminate).
  - rewrite ToString_JArr. unfold ToString_join.
    destruct (ToString_elements l) as [parts|y] eqn:E; intros H; inversion H; subst.
    clear H. induction IH as [|e l He _ IHl]; simpl in E; [discriminate|].
    destruct (is_nullish e).
    + destruct (ToString_elements l) as [ts|y]; inversion E; subst. apply IHl. reflexivity.
    + destruct (ToString e) as [t|y] eqn:Et.
      * destruct (ToString_elements l) as [ts|y]; inversion E; subst. apply IHl. reflexivity.
      * inversion E; subst. apply He. reflexivity.
  - simpl. destruct (has_key "toString" ps); intros H; inversion H; reflexivity.
Qed.












(** Both hypotheses are needed: a text block whose [text] is an object with
    an own [toString] property has no BigInt inside, and the join of the
    text parts throws on it. *)
Lemma extract_join_throws :
  bigint_free unprintableText = true /\
  is_returned (JSON_stringify unprintableText) = true /\
  extractTextFromResponse unprintableText = Threw primitiveTypeError.
Proof. repeat split. Qed.


End TextFacts.

(** ** Expectation functions and the case schema *)

Module ExpectationFacts.
Import Demo.

Section RegexFacts.
Context {engine : RegExpEngine}.

Lemma findFailedPatterns_nil text patterns :
  findFailedPatterns text patterns = [] <->
  forall pattern, In pattern patterns ->
    exists regex, RegExp_new pattern "m" = Returned regex
                  /\ RegExp_test regex text = true.
Proof.
  unfold findFailedPatterns. induction patterns as [|p ps IH]; simpl.
  - split; [intros _ q [] | reflexivity].
  - destruct (RegExp_new p "m") as [regex|e] eqn:E.
    + destruct (RegExp_test regex text) eqn:T; simpl.
      * rewrite IH. split.
        -- intros H q [<-|Hq]; [eauto | auto].
        -- intros H q Hq. apply H. right. exact Hq.
      * split; [discriminate|].
        intros H. destruct (H p (or_introl eq_refl)) as (regex' & E' & T').
        rewrite E in E'. inversion E'; subst. congruence.
    + split; [discriminate|].
      intros H. destruct (H p (or_introl eq_refl)) as (regex' & E' & _).
      rewrite E in E'. discriminate.
Qed.

Lemma findFailedPatterns_uncompilable text patterns pattern :
  In pattern patterns -> is_returned (RegExp_new pattern "m") = false ->
  In pattern (findFailedPatterns text patterns).
Proof.
  intros Hin Hbad. unfold findFailedPatterns. apply filter_In. split; auto.
  destruct (RegExp_new pattern "m"); [discriminate | reflexivity].
Qed.

(** C8: with [expectedRegex] set and the text of the response extracted,
    the regex expectation returns a result (it does not throw); it passes
    exactly when every pattern compiles under the [m] flag and matches
    the text; a pattern that does not compile is among the failed
    patterns and makes the result fail. *)
Theorem regex_expectation_all_patterns_must_match
    (evalCase : EvalCase) (response : JsValue)
    (expected : StringOrList) (text : string) :
  ec_expectedRegex evalCase = Some expected ->
  extractTextFromResponse response = Returned (JStr text) ->
  exists result,
    createRegexExpectation evalCase response = Returned result /\
    (er_pass result = true <->
     forall pattern, In pattern (toArray expected) ->
       exists regex, RegExp_new pattern "m" = Returned regex
                     /\ RegExp_test regex text = true) /\
    (forall pattern, In pattern (toArray expected) ->
       is_returned (RegExp_new pattern "m") = false ->
       In pattern (findFailedPatterns text (toArray expected))
       /\ er_pass result = false).
Proof.
  intros Hexp Htext. unfold createRegexExpectation, with_text.
  rewrite Hexp, Htext.
  pose proof (findFailedPatterns_nil text (toArray expected)) as Hnil.
  destruct (findFailedPatterns text (toArray expected)) as [|p failed] eqn:F; simpl.
  - eexists; split; [reflexivity|]. simpl. split.
    + split; [intros _; apply Hnil; reflexivity | reflexivity].
    + intros pattern Hin Hbad.
      pose proof (findFailedPatterns_uncompilable text _ _ Hin Hbad) as Hf.
      rewrite F in Hf. destruct Hf.
  - eexists; split; [reflexivity|]. simpl. split.
    + split; [discriminate|]. intros H. apply Hnil in H. discriminate.
    + intros pattern Hin Hbad. split; [|reflexivity].
      pose proof (findFailedPatterns_uncompilable text _ _ Hin Hbad) as Hf.
      rewrite F in Hf. exact Hf.
Qed.
End RegexFacts.

Lemma regex_expectation_all_patterns_must_match_witness :
  exists result,
    createRegexExpectation
      (withRegex (mkCase "w" "echo" "hi") (ManyStrings ["^## Weather"; "(Sunny"]))
      (JArr [textBlock "^## Weather today"])
    = Returned result /\ er_pass result = false.
Proof.
  destruct (regex_expectation_all_patterns_must_match
              (withRegex (mkCase "w" "echo" "hi") (ManyStrings ["^## Weather"; "(Sunny"]))
              (JArr [textBlock "^## Weather today"])
              (ManyStrings ["^## Weather"; "(Sunny"]) "^## Weather today"
              eq_refl eq_refl) as (result & Hres & _ & Hbad).
  exists result. split; [exact Hres|].
  apply (Hbad "(Sunny"); [right; left; reflexivity | reflexivity].
Defined.

(** *** The case schema and [expectedError] *)

Lemma own_flat_map_None (k : string) (shape : ZodShape) (ps : list (string * JsValue)) :
  ~ In k (List.map fst shape) ->
  own k (List.flat_map
           (fun kc => match own (fst kc) ps with
                      | Some v => [(fst kc, v)]
                      | None => []
                      end) shape) = None.
Proof.
  induction shape as [|[k' c] shape IH]; simpl; auto.
  intros Hk. destruct (own k' ps) as [v|]; simpl.
  - destruct (String.eqb k k') eqn:E.
    + apply String.eqb_eq in E. subst. tauto.
    + apply IH. tauto.
  - apply IH. tauto.
Qed.

(** The parse keeps no key that the shape does not list. *)
Lemma z_object_parse_strips (shape : ZodShape) (input : JsValue)
    (ps : list (string * JsValue)) (k : string) :
  z_object_parse shape input = Some ps ->
  ~ In k (List.map fst shape) -> prop k ps = JUndefined.
Proof.
  unfold z_object_parse. destruct input; try discriminate.
  destruct (forallb _ shape); [|discriminate].
  intros H Hk. inversion H; subst; clear H.
  unfold prop. rewrite own_flat_map_None; auto.
Qed.

(** No validated case carries [expectedError]: the schema does not list
    the key, and the parse drops keys it does not list. *)
Lemma validateEvalCase_drops_expectedError (o : JsValue) (c : EvalCase) :
  validateEvalCase o = Some c -> ec_expectedError c = JUndefined.
Proof.
  unfold validateEvalCase.
  destruct (z_object_parse EvalCaseSchema o) as [ps|] eqn:E; [|discriminate].
  intros H. inversion H; subst; clear H. unfold EvalCase_of_object; simpl ec_expectedError.
  apply (z_object_parse_strips _ _ _ _ E).
  simpl. intros H. repeat (destruct H as [H|H]; [discriminate H|]). exact H.
Qed.

(** X8. The behaviour of the error expectation itself: it skips exactly when
    [expectedError] is [undefined]; on a response with [isError === true]
    it passes for [true], and for a string or a list of strings it passes
    exactly when the lower-cased text of the response includes every
    lower-cased substring. *)
Lemma error_expectation_behaviour (evalCase : EvalCase) (response : JsValue) :
  (createErrorExpectation evalCase response
   = Returned {| er_pass := true;
                 er_details := Some "No error expectation defined, skipping" |}
   <-> ec_expectedError evalCase = JUndefined) /\
  (hasError response = true ->
   ec_expectedError evalCase = JBool true ->
   exists d, createErrorExpectation evalCase response
             = Returned {| er_pass := true; er_details := d |}) /\
  (hasError response = true ->
   forall substrings text,
     ec_expectedError evalCase = JArr (List.map JStr substrings)
     \/ (exists s, ec_expectedError evalCase = JStr s /\ substrings = [s]) ->
     extractTextFromResponse response = Returned (JStr text) ->
     exists result,
       createErrorExpectation evalCase response = Returned result /\
       (er_pass result = true <->
        forall s, In s substrings ->
          includes (toLowerCase text) (toLowerCase s) = true)).
Proof.
  assert (Hlow : forall l, lowerable (List.map JStr l) = Returned l).
  { induction l as [|s l IH]; simpl; [reflexivity | rewrite IH; reflexivity]. }
  assert (Hmiss : forall text l,
             findMissingSubstrings text l false = [] <->
             forall s, In s l -> includes (toLowerCase text) (toLowerCase s) = true).
  { intros text l. unfold findMissingSubstrings.
    induction l as [|s l IH]; simpl.
    - split; [intros _ q [] | reflexivity].
    - destruct (includes (toLowerCase text) (toLowerCase s)) eqn:E; simpl.
      + rewrite IH. split.
        * intros H q [<-|Hq]; auto.
        * intros H q Hq. apply H. right. exact Hq.
      + split; [discriminate|]. intros H.
        rewrite (H s (or_introl eq_refl)) in E. discriminate. }
  unfold createErrorExpectation. repeat split.
  - destruct (ec_expectedError evalCase) as [ | | [|] | n | n | s | l | ps];
      try reflexivity; intros H; exfalso;
      destruct (hasError response); simpl in H; try discriminate H;
      unfold with_text in H;
      destruct (extractTextFromResponse response) as [[]|]; try discriminate H;
      repeat match type of H with
             | context [match lowerable ?x with Returned _ => _ | Threw _ => _ end] =>
                 destruct (lowerable x)
             | context [if Nat.ltb 0 ?x then _ else _] => destruct (Nat.ltb 0 x)
             end;
      discriminate H.
  - intros ->. reflexivity.
  - intros He ->. rewrite He. simpl. eauto.
  - intros He substrings text Hexp Htext. rewrite He. simpl.
    assert (Hgoal : exists result,
               with_text response (fun errorText =>
                 match lowerable (List.map JStr substrings) with
                 | Threw e => Threw e
                 | Returned patterns =>
                     let missing := findMissingSubstrings errorText patterns false in
                     if Nat.ltb 0 (length missing) then
                       Returned {| er_pass := false;
                                   er_details := Some
                                     ("Error message missing expected content: "
                                      +:+ quoted_list missing
                                      +:+ nl +:+ nl +:+ "Actual error:" +:+ nl
                                      +:+ preview errorText) |}
                     else
                       Returned {| er_pass := true;
                                   er_details := Some
                                     "Tool returned expected error with matching message" |}
                 end) = Returned result
               /\ (er_pass result = true <->
                   forall s, In s substrings ->
                     includes (toLowerCase text) (toLowerCase s) = true)).
    { unfold with_text. rewrite Htext, Hlow. cbv zeta.
      pose proof (Hmiss text substrings) as Hm.
      destruct (findMissingSubstrings text substrings false) as [|m ms]; simpl.
      - eexists; split; [reflexivity|]. simpl.
        split; [intros _; apply Hm; reflexivity | reflexivity].
      - eexists; split; [reflexivity|]. simpl.
        split; [discriminate|]. intros H. apply Hm in H. discriminate. }
    destruct Hexp as [-> | (s & -> & ->)]; [|exact Hgoal].
    destruct substrings; exact Hgoal.
Qed.

(** C4 at the documented case [{..., "expectedError": true}]: the raw
    object carries the directive, the validated case does not, so on a
    response that is not an error the expectation fails for the raw case
    and skips (passes) for the validated one. *)
Theorem expectedError_lost_in_validation :
  ec_expectedError (EvalCase_of_object (as_record errorCaseObject)) = JBool true /\
  createErrorExpectation (EvalCase_of_object (as_record errorCaseObject)) successResponse
  = Returned {| er_pass := false;
                er_details := Some
                  "Expected tool to return isError: true, but it returned success" |} /\
  exists c, validateEvalCase errorCaseObject = Some c /\
            ec_expectedError c = JUndefined /\
            createErrorExpectation c successResponse
            = Returned {| er_pass := true;
                          er_details := Some "No error expectation defined, skipping" |}.
Proof.
  split; [reflexivity|]. split; [reflexivity|].
  eexists. split; [reflexivity|]. split; reflexivity.
Qed.

End ExpectationFacts.

(** ** The runner *)

Module RunnerFacts.
Import Runner Demo.

Lemma prefix_refl (s : string) : String.prefix s s = true.
Proof.
  induction s as [|c s IH]; simpl; auto.
  destruct (ascii_dec c c); [exact IH | contradiction].
Qed.

Lemma includes_self (s : string) : includes s s = true.
Proof.
  destruct s; [reflexivity|]. cbn [includes]. rewrite prefix_refl. reflexivity.
Qed.

Lemma includes_append_r (a b s : string) :
  includes b s = true -> includes (a +:+ b) s = true.
Proof.
  intros H. induction a as [|c a IH]; simpl; auto.
  rewrite IH. apply orb_true_r.
Qed.

Section Facts.
Variable World : Type.
Variable JudgeClient : Type.
Variable now : World -> Z.

Implicit Types (options : EvalRunnerOptions World JudgeClient)
               (context : EvalExpectationContext World JudgeClient)
               (evalCase : EvalCase) (st : RunState World)
               (results : gmap string EvalExpectationResult).

(** One guarded block: nothing happens for a key that is not enabled;
    for an enabled key the function is called once, on the current
    world, and its slot is set. *)
Lemma runExpectation_step key label options context evalCase response results st :
  match expectations options !! key with
  | None =>
      runExpectation key label options context evalCase response (results, st)
      = (results, st)
  | Some f =>
      runExpectation key label options context evalCase response (results, st)
      = (<[key := settled label (f context evalCase response (world st)).1]> results,
         logged (CallExpectation key (ec_id evalCase) response) st
                (f context evalCase response (world st)).2)
  end.
Proof.
  unfold runExpectation.
  destruct (expectations options !! key) as [f|]; [|reflexivity].
  destruct (f context evalCase response (world st)) as [[r|e] w]; reflexivity.
Qed.

Lemma blocks_done_step options context evalCase response st0 done key label
    results st extra :
  ~ In key (List.map fst done) ->
  blocks_done options context evalCase response st0 done results st extra ->
  exists results' st' extra',
    runExpectation key label options context evalCase response (results, st)
    = (results', st') /\
    blocks_done options context evalCase response st0 (done ++ [(key, label)])
      results' st' extra'.
Proof.
  intros Hfresh (Hcalls & Hextra & Hslots & Hother).
  pose proof (runExpectation_step key label options context evalCase response
                results st) as Hstep.
  destruct (expectations options !! key) as [f|] eqn:E.
  - eexists _, _, (extra ++ [CallExpectation key (ec_id evalCase) response]).
    split; [exact Hstep|]. repeat split.
    + simpl. rewrite Hcalls, <- app_assoc. reflexivity.
    + intros call Hin. apply in_app_or in Hin as [Hin|[<-|[]]]; [auto|].
      exists key. split; [reflexivity | exists f; exact E].
    + intros k l Hin. apply in_app_or in Hin as [Hin|[Hin|[]]].
      * assert (Hne : key <> k).
        { intros <-. apply Hfresh. apply in_map_iff. exists (key, l). auto. }
        specialize (Hslots k l Hin).
        destruct (expectations options !! k) as [g|].
        -- destruct Hslots as (w & Hw & Hin'). exists w.
           rewrite lookup_insert_ne by exact Hne. split; [exact Hw|].
           apply in_or_app. left. exact Hin'.
        -- rewrite lookup_insert_ne by exact Hne. exact Hslots.
      * inversion Hin; subst; clear Hin. rewrite E. exists (world st).
        rewrite lookup_insert_eq. split; [reflexivity|].
        apply in_or_app. right. left. reflexivity.
    + intros k Hk. rewrite map_app, in_app_iff in Hk. simpl in Hk.
      rewrite lookup_insert_ne by (intros <-; tauto). apply Hother. tauto.
  - exists results, st, extra. split; [exact Hstep|]. repeat split; auto.
    + intros k l Hin.
      apply in_app_or in Hin as [Hin|[Hin|[]]]; [exact (Hslots k l Hin)|].
      inversion Hin; subst; clear Hin. rewrite E. auto.
    + intros k Hk. rewrite map_app, in_app_iff in Hk. apply Hother. tauto.
Qed.

(** The slots and the calls after the three guarded blocks. *)
Lemma three_blocks options context evalCase response st :
  exists results st' extra,
    runExpectation "judge" "Judge" options context evalCase response
      (runExpectation "schema" "Schema" options context evalCase response
         (runExpectation "exact" "Exact" options context evalCase response (∅, st)))
    = (results, st') /\
    blocks_done options context evalCase response st kinds results st' extra.
Proof.
  assert (H0 : blocks_done options context evalCase response st [] ∅ st []).
  { split; [|split; [|split]].
    - symmetry. apply app_nil_r.
    - intros call [].
    - intros key label [].
    - intros key _. apply lookup_empty. }
  destruct (blocks_done_step _ _ _ _ _ [] "exact" "Exact" _ _ _ (fun H => H) H0)
    as (r1 & s1 & x1 & E1 & H1).
  rewrite E1.
  assert (F2 : ~ In "schema" (List.map fst ([] ++ [("exact", "Exact")])))
    by (simpl; intros [H|[]]; discriminate H).
  destruct (blocks_done_step _ _ _ _ _ _ "schema" "Schema" _ _ _ F2 H1)
    as (r2 & s2 & x2 & E2 & H2).
  rewrite E2.
  assert (F3 : ~ In "judge" (List.map fst (([] ++ [("exact", "Exact")])
                                            ++ [("schema", "Schema")])))
    by (simpl; intros [H|[H|[]]]; discriminate H).
  destruct (blocks_done_step _ _ _ _ _ _ "judge" "Judge" _ _ _ F3 H2)
    as (r3 & s3 & x3 & E3 & H3).
  rewrite E3. eauto.
Qed.


(** When the tool call of a case throws a value whose message the runner
    can read, and the message is not empty, the case fails with that
    message as [error], [response] stays undefined, the expectations record
    is empty, and the tool call is the only call made for the case. *)
Lemma runCase_tool_threw options context evalCase st err message w1 :
  callTool (mcp context) (ec_toolName evalCase) (ec_args evalCase) (world st)
  = (Threw err, w1) ->
  ToString_message err = Returned message ->
  message <> "" ->
  runCase now options context evalCase st
  = ({| cr_id := ec_id evalCase;
        cr_pass := false;
        cr_response := JUndefined;
        cr_error := Some message;
        cr_expectations := ∅;
        cr_durationMs := now w1 - now (world st) |},
     logged (CallTool (ec_toolName evalCase) (ec_args evalCase)) st w1).
Proof.
  intros Hcall Hconv Hmsg. unfold runCase. rewrite Hcall. cbv beta iota.
  assert (Hm : Thrown_message err = message).
  { destruct err as [name msg|v]; simpl in *.
    - inversion Hconv. reflexivity.
    - symmetry. apply TextFacts.ToString_returns. exact Hconv. }
  rewrite Hm.
  assert (Ht : truthy (Some message) = true).
  { simpl. destruct (String.eqb message "") eqn:E; auto.
    apply String.eqb_eq in E. contradiction. }
  rewrite Ht. reflexivity.
Qed.

Lemma runCase_id options context evalCase st :
  cr_id (runCase now options context evalCase st).1 = ec_id evalCase.
Proof.
  unfold runCase.
  destruct (callTool _ _ _ _) as [[result|err] w1]; cbv beta iota.
  - simpl negb. cbv iota.
    destruct (runExpectation "judge" _ _ _ _ _ _) as [results st']. reflexivity.
  - destruct (negb (truthy _)).
    + destruct (runExpectation "judge" _ _ _ _ _ _) as [results st']. reflexivity.
    + reflexivity.
Qed.

(** Only the keys [exact], [schema] and [judge] are ever given a slot. *)
Lemma runCase_other_keys options context evalCase st key :
  ~ In key (List.map fst kinds) ->
  cr_expectations (runCase now options context evalCase st).1 !! key = None.
Proof.
  intros Hkey. unfold runCase.
  destruct (callTool _ _ _ _) as [[result|err] w1]; cbv beta iota.
  - simpl negb. cbv iota.
    destruct (three_blocks options (enrich options context) evalCase (narrowed result)
                (logged (CallTool (ec_toolName evalCase) (ec_args evalCase)) st w1))
      as (results & st' & extra & Hrun & _ & _ & _ & Hother).
    rewrite Hrun. simpl. auto.
  - destruct (negb (truthy _)).
    + destruct (three_blocks options (enrich options context) evalCase JUndefined
                  (logged (CallTool (ec_toolName evalCase) (ec_args evalCase)) st w1))
        as (results & st' & extra & Hrun & _ & _ & _ & Hother).
      rewrite Hrun. simpl. auto.
    + simpl. apply lookup_empty.
Qed.

(** *** The loop *)

Lemma filter_partition_length {A : Type} (f : A -> bool) (l : list A) :
  length l = length (List.filter f l)
             + length (List.filter (fun x => negb (f x)) l).
Proof.
  induction l as [|x l IH]; simpl; auto.
  destruct (f x); simpl; lia.
Qed.


(** What the loop returns: the accumulator extended, in order, by the
    results of a prefix of the cases; under [stopOnFailure] a failed
    result can only be the last one; and the prefix is the whole list
    unless the loop was left early. *)
Lemma runCases_returned options context cases acc st rs st' :
  runCases now options context cases acc st = (Returned rs, st') ->
  exists new,
    rs = acc ++ new /\
    List.map cr_id new = take (length new) (List.map ec_id cases) /\
    (default false (stopOnFailure options) = true ->
     forall i r, new !! i = Some r -> cr_pass r = false -> S i = length new) /\
    (Forall (fun r => cr_pass r = true) new
     \/ default false (stopOnFailure options) = false ->
     length new = length cases).
Proof.
  revert acc st. induction cases as [|c cases IH]; intros acc st; simpl.
  - intros H. inversion H; subst. exists []. rewrite app_nil_r.
    repeat split; auto. intros _ i r Hi. discriminate Hi.
  - pose proof (runCase_id options context c st) as Hid.
    destruct (runCase now options context c st) as [cr st1]. simpl in Hid.
    assert (Hloop : forall st2,
      (if default false (stopOnFailure options) && negb (cr_pass cr)
       then (Returned (acc ++ [cr]), st2)
       else runCases now options context cases (acc ++ [cr]) st2)
      = (Returned rs, st') ->
      exists new,
        rs = acc ++ new /\
        List.map cr_id new = take (length new) (ec_id c :: List.map ec_id cases) /\
        (default false (stopOnFailure options) = true ->
         forall i r, new !! i = Some r -> cr_pass r = false -> S i = length new) /\
        (Forall (fun r => cr_pass r = true) new
         \/ default false (stopOnFailure options) = false ->
         length new = S (length cases))).
    { intros st2.
      destruct (default false (stopOnFailure options)) eqn:Estop;
        destruct (cr_pass cr) eqn:Epass; simpl.
      - intros H. apply IH in H as (new & -> & Hids & Hlast & Hall).
        exists (cr :: new). rewrite <- app_assoc. simpl. rewrite Hid, Hids.
        repeat split; auto.
        + intros _ [|i] r Hi Hr; simpl in Hi.
          * inversion Hi; subst. congruence.
          * f_equal. eapply Hlast; eauto.
        + intros [Hf|Hf]; [|discriminate]. f_equal. apply Hall. left.
          inversion Hf; auto.
      - intros H. inversion H; subst. exists [cr]. simpl. rewrite Hid.
        rewrite take_0. repeat split; auto.
        + intros _ [|i] r Hi Hr; simpl in Hi; [reflexivity | discriminate Hi].
        + intros [Hf|Hf]; [|discriminate]. inversion Hf; congruence.
      - intros H. apply IH in H as (new & -> & Hids & Hlast & Hall).
        exists (cr :: new). rewrite <- app_assoc. simpl. rewrite Hid, Hids.
        repeat split; auto. discriminate.
      - intros H. apply IH in H as (new & -> & Hids & Hlast & Hall).
        exists (cr :: new). rewrite <- app_assoc. simpl. rewrite Hid, Hids.
        repeat split; auto. discriminate. }
    destruct (onCaseComplete options) as [callback|].
    + destruct (callback cr (world st1)) as [[[]|e] w]; [apply Hloop | discriminate].
    + apply Hloop.
Qed.

(** Under [stopOnFailure] a failed result is the last one. *)
Lemma stop_on_failure_last options context st res st' :
  stopOnFailure options = Some true ->
  runEvalDataset now options context st = (Returned res, st') ->
  forall i r, caseResults res !! i = Some r -> cr_pass r = false ->
              S i = length (caseResults res).
Proof.
  intros Hstop. unfold runEvalDataset.
  destruct (runCases now options context (ds_cases (dataset options)) [] st)
    as [[rs|e] st1] eqn:E; [|discriminate].
  intros H. inversion H; subst; clear H. simpl.
  apply runCases_returned in E as (new & Hrs & _ & Hlast & _).
  simpl in Hrs. subst new. apply Hlast. rewrite Hstop. reflexivity.
Qed.

(** C9: a run that completes returns counts with
    [total = passed + failed = caseResults.length], [passed] and [failed]
    being the numbers of results with [pass] true and false, and the
    results are those of the first [total] cases of the dataset, in the
    order of the dataset. *)
Theorem run_result_counts options context st res st' :
  runEvalDataset now options context st = (Returned res, st') ->
  total res = passed res + failed res /\
  total res = length (caseResults res) /\
  passed res = length (List.filter cr_pass (caseResults res)) /\
  failed res = length (List.filter (fun r => negb (cr_pass r)) (caseResults res)) /\
  List.map cr_id (caseResults res)
  = take (total res) (List.map ec_id (ds_cases (dataset options))).
Proof.
  unfold runEvalDataset.
  destruct (runCases now options context (ds_cases (dataset options)) [] st)
    as [[rs|e] st1] eqn:E; [|discriminate].
  intros H. inversion H; subst; clear H. simpl.
  apply runCases_returned in E as (new & Hrs & Hids & _). simpl in Hrs. subst new.
  repeat split; auto. apply filter_partition_length.
Qed.



End Facts.

(** *** The concrete runs *)

(** The run [A (pass), B (fail), C (pass)] under [stopOnFailure] returns the
    results of [A] and [B] only. *)
Lemma abc_run :
  exists res st',
    runEvalDataset now abcOptions context start = (Returned res, st') /\
    List.map cr_id (caseResults res) = ["A"; "B"] /\
    List.map cr_pass (caseResults res) = [true; false] /\
    total res = 2 /\ passed res = 1 /\ failed res = 1.
Proof.
  eexists _, _. split; [vm_compute; reflexivity|].
  vm_compute. repeat split.
Qed.

Lemma run_result_counts_witness :
  exists res st',
    runEvalDataset now abcOptions context start = (Returned res, st') /\
    total res = passed res + failed res /\
    total res = length (caseResults res) /\
    List.map cr_id (caseResults res)
    = take (total res) (List.map ec_id abc).
Proof.
  destruct (runEvalDataset now abcOptions context start) as [[res|e] st'] eqn:E.
  - exists res, st'. split; [reflexivity|].
    destruct (run_result_counts World JudgeClient now abcOptions context start res st' E)
      as (H1 & H2 & _ & _ & H5).
    split; [exact H1|]. split; [exact H2 | exact H5].
  - vm_compute in E. discriminate E.
Defined.



(** C2 at a tool call that throws an [Error] with an empty message: the
    recorded [error] is the empty string, the [exact] expectation is
    invoked (on [undefined]) and recorded, and the case passes. *)
Theorem empty_error_message_runs_expectations :
  cr_error (runCase now silentOptions context silentCase start).1 = Some "" /\
  cr_response (runCase now silentOptions context silentCase start).1 = JUndefined /\
  cr_pass (runCase now silentOptions context silentCase start).1 = true /\
  cr_expectations (runCase now silentOptions context silentCase start).1 !! "exact"
  = Some {| er_pass := true; er_details := None |} /\
  calls (runCase now silentOptions context silentCase start).2
  = [CallTool "silent" [("text", JStr "")]; CallExpectation "exact" "x" JUndefined].
Proof. vm_compute. repeat split. Qed.

(** C1 at options that enable [textContains] next to [exact], for a case
    whose text directive the response does not meet: the expectation would
    fail, but the runner never calls it, records no [textContains] slot,
    and the case passes. *)
Theorem text_contains_expectation_never_runs :
  expectations greetingOptions !! "textContains" = Some textContainsExpectation /\
  (exists d, createTextContainsExpectation true greetingCase (JArr [textBlock "hi"])
             = Returned {| er_pass := false; er_details := d |}) /\
  cr_expectations (runCase now greetingOptions context greetingCase start).1
    !! "textContains" = None /\
  cr_pass (runCase now greetingOptions context greetingCase start).1 = true /\
  calls (runCase now greetingOptions context greetingCase start).2
  = [CallTool "echo" [("text", JStr "hi")];
     CallExpectation "exact" "greeting" (JArr [textBlock "hi"])].
Proof.
  split; [reflexivity|]. split; [eexists; vm_compute; reflexivity|].
  vm_compute. repeat split.
Qed.

End RunnerFacts.


(** ** Further properties of text extraction and matching *)

Module TextMoreFacts.
Import Demo.

Lemma textParts_filter (l : list JsValue) :
  textParts (List.filter is_text_block l) = textParts l.
Proof.
  unfold textParts. f_equal.
  induction l as [|c l IH]; simpl; auto.
  destruct (is_text_block c) eqn:E; simpl; rewrite ?E, IH; reflexivity.
Qed.

Lemma textParts_nonempty (l : list JsValue) :
  (exists c, In c l /\ is_text_block c = true) ->
  Nat.ltb 0 (length (textParts l)) = true.
Proof.
  intros (c & Hin & Hc). unfold textParts. rewrite length_map.
  assert (Hf : In c (List.filter is_text_block l)) by (apply filter_In; auto).
  destruct (List.filter is_text_block l); [destruct Hf | reflexivity].
Qed.

(** X1. A wrapped tool result whose [content] array has at least one text
    block extracts to the same text as the bare [content] array, whatever
    else the object carries ([structuredContent], [text], [isError]). *)
Theorem extract_wrapped_equals_bare (r : list (string * JsValue)) (l : list JsValue) :
  prop "content" r = JArr l ->
  (exists c, In c l /\ is_text_block c = true) ->
  extractTextFromResponse (JObj r) = extractTextFromResponse (JArr l).
Proof.
  intros Hc Hex. unfold extractTextFromResponse. rewrite Hc.
  rewrite (textParts_nonempty l Hex). reflexivity.
Qed.

Lemma extract_wrapped_equals_bare_witness :
  extractTextFromResponse errorResponse
  = extractTextFromResponse (JArr [textBlock "Query is REQUIRED"]).
Proof.
  apply (extract_wrapped_equals_bare
           [("content", JArr [textBlock "Query is REQUIRED"]); ("isError", JBool true)]
           [textBlock "Query is REQUIRED"] eq_refl).
  exists (textBlock "Query is REQUIRED"). split; [left; reflexivity | reflexivity].
Defined.

(** X2. As soon as an array holds one text block, its other elements (images,
    resources, primitives) do not contribute to the extracted text. *)
Theorem extract_ignores_other_blocks (l : list JsValue) :
  (exists c, In c l /\ is_text_block c = true) ->
  extractTextFromResponse (JArr l)
  = extractTextFromResponse (JArr (List.filter is_text_block l)).
Proof.
  intros Hex. unfold extractTextFromResponse.
  rewrite textParts_filter, (textParts_nonempty l Hex). reflexivity.
Qed.

Lemma extract_ignores_other_blocks_witness :
  extractTextFromResponse
    (JArr [JObj [("type", JStr "image")]; textBlock "a"; JNum 3; textBlock "b"])
  = extractTextFromResponse (JArr [textBlock "a"; textBlock "b"]).
Proof.
  apply (extract_ignores_other_blocks
           [JObj [("type", JStr "image")]; textBlock "a"; JNum 3; textBlock "b"]).
  exists (textBlock "a"). split; [right; left; reflexivity | reflexivity].
Defined.

Lemma ToString_elements_strings (texts : list string) :
  ToString_elements (List.map JStr texts) = Returned texts.
Proof. induction texts as [|t texts IH]; simpl; [|rewrite IH]; reflexivity. Qed.

(** X3. An array made of text blocks with string texts extracts to the texts
    joined with a newline, in array order. *)
Theorem extract_joins_text_blocks (l : list JsValue) (texts : list string) :
  Forall2 (fun c t => exists ps, c = JObj ps /\ is_text_block c = true
                                 /\ prop "text" ps = JStr t) l texts ->
  texts <> [] ->
  extractTextFromResponse (JArr l) = Returned (JStr (String.concat nl texts)).
Proof.
  intros Hall Hne.
  assert (Hparts : textParts l = List.map JStr texts).
  { clear Hne. unfold textParts. induction Hall as [|c t l texts (ps & -> & Hc & Ht) _ IH]; simpl.
    - reflexivity.
    - simpl in Hc. rewrite Hc. simpl. rewrite Ht. f_equal.
      apply IH. }
  unfold extractTextFromResponse. rewrite Hparts, length_map.
  destruct texts as [|t texts]; [contradiction|]. simpl Nat.ltb. cbv iota.
  unfold joined, ToString_join. rewrite ToString_elements_strings. reflexivity.
Qed.

Lemma extract_joins_text_blocks_witness :
  extractTextFromResponse (JArr [textBlock "## Report"; textBlock "Temp: 20"])
  = Returned (JStr (String.concat nl ["## Report"; "Temp: 20"])).
Proof.
  apply (extract_joins_text_blocks
           [textBlock "## Report"; textBlock "Temp: 20"] ["## Report"; "Temp: 20"]).
  - repeat constructor; eexists; repeat split; reflexivity.
  - discriminate.
Defined.

End TextMoreFacts.

(** ** Further properties of the expectation functions *)

Module ExpectationMoreFacts.
Import Demo.

Lemma prefix_append (s a b : string) :
  String.prefix s a = true -> String.prefix s (a +:+ b) = true.
Proof.
  revert a. induction s as [|c s IH]; intros a.
  - intros _. destruct (a +:+ b); reflexivity.
  - destruct a as [|d a]; [discriminate|].
    change (String d a +:+ b) with (String d (a +:+ b)). cbn [String.prefix].
    destruct (ascii_dec c d); [apply IH | discriminate].
Qed.

Lemma includes_append_l (a b s : string) :
  includes a s = true -> includes (a +:+ b) s = true.
Proof.
  induction a as [|c a IH]; cbn [includes]; intros H;
    apply orb_true_iff in H as [H|H].
  - destruct s; [|discriminate]. destruct b; reflexivity.
  - discriminate.
  - change (String c a +:+ b) with (String c (a +:+ b)). cbn [includes].
    change (String c (a +:+ b)) with (String c a +:+ b).
    rewrite (prefix_append _ _ b H). reflexivity.
  - change (String c a +:+ b) with (String c (a +:+ b)). cbn [includes].
    rewrite (IH H). apply orb_true_r.
Qed.

Lemma includes_quoted_list (xs : list string) (x : string) :
  In x xs -> includes (quoted_list xs) (dq +:+ x +:+ dq) = true.
Proof.
  unfold quoted_list. induction xs as [|y ys IH]; [intros []|].
  intros [->|Hin]; simpl.
  - destruct (List.map _ ys).
    + apply RunnerFacts.includes_self.
    + apply includes_append_l, RunnerFacts.includes_self.
  - specialize (IH Hin). destruct (List.map _ ys) eqn:E.
    + destruct ys; [destruct Hin | discriminate E].
    + apply RunnerFacts.includes_append_r, RunnerFacts.includes_append_r. exact IH.
Qed.

(** X6. The text-contains expectation on a case with [expectedTextContains]
    and an extractable response: it returns a result with details; the
    result passes exactly when every expected substring occurs in the text
    (both lower-cased when matching is case-insensitive); and a substring
    that does not occur makes it fail and is quoted in the details. *)
Theorem text_contains_reports_missing
    (caseSensitive : bool) (evalCase : EvalCase) (response : JsValue)
    (expected : StringOrList) (text : string) :
  ec_expectedTextContains evalCase = Some expected ->
  extractTextFromResponse response = Returned (JStr text) ->
  let norm := fun s => if caseSensitive then s else toLowerCase s in
  exists result details,
    createTextContainsExpectation caseSensitive evalCase response = Returned result /\
    er_details result = Some details /\
    (er_pass result = true <->
     forall s, In s (toArray expected) -> includes (norm text) (norm s) = true) /\
    (forall s, In s (toArray expected) -> includes (norm text) (norm s) = false ->
       er_pass result = false /\ includes details (dq +:+ s +:+ dq) = true).
Proof.
  intros Hexp Htext norm.
  unfold createTextContainsExpectation, with_text. rewrite Hexp, Htext.
  assert (Hmem : forall s,
             In s (findMissingSubstrings text (toArray expected) caseSensitive) <->
             In s (toArray expected) /\ includes (norm text) (norm s) = false).
  { intros s. unfold findMissingSubstrings. rewrite filter_In. subst norm.
    destruct caseSensitive; simpl; rewrite negb_true_iff; reflexivity. }
  destruct (findMissingSubstrings text (toArray expected) caseSensitive)
    as [|m missing] eqn:F.
  - simpl. eexists _, _. split; [reflexivity|]. split; [reflexivity|]. simpl. split.
    + split; [|reflexivity]. intros _ s Hin.
      destruct (includes (norm text) (norm s)) eqn:E; [reflexivity|].
      destruct (proj2 (Hmem s) (conj Hin E)).
    + intros s Hin E. destruct (proj2 (Hmem s) (conj Hin E)).
  - cbn [length Nat.eqb]. eexists _, _. split; [reflexivity|].
    split; [reflexivity|]. cbn [er_pass]. split.
    + split; [discriminate|]. intros H.
      destruct (proj1 (Hmem m) (or_introl eq_refl)) as (Hin & E).
      rewrite (H m Hin) in E. discriminate.
    + intros s Hin E. split; [reflexivity|].
      apply RunnerFacts.includes_append_r, RunnerFacts.includes_append_r,
            RunnerFacts.includes_append_r, includes_append_l.
      apply includes_quoted_list. apply Hmem. auto.
Qed.

Lemma text_contains_reports_missing_witness :
  exists result details,
    createTextContainsExpectation true greetingCase (JArr [textBlock "hi"])
    = Returned result /\
    er_details result = Some details /\
    er_pass result = false /\
    includes details (dq +:+ "bye" +:+ dq) = true.
Proof.
  destruct (text_contains_reports_missing true greetingCase (JArr [textBlock "hi"])
              (OneString "bye") "hi" eq_refl eq_refl)
    as (result & details & Hres & Hdet & _ & Hmiss).
  exists result, details. split; [exact Hres|]. split; [exact Hdet|].
  apply (Hmiss "bye"); [left; reflexivity | reflexivity].
Defined.

(** X7. The text-contains and regex expectations throw in one situation only:
    the directive is set and the text extractor throws on the response
    (the same error is passed on).  Without the directive they return,
    on any response, the passing result that says the check was skipped. *)
Theorem text_expectations_throw_only_with_extractor
    {engine : RegExpEngine} (evalCase : EvalCase) (response : JsValue)
    (e : JsThrown) :
  (forall caseSensitive,
     createTextContainsExpectation caseSensitive evalCase response = Threw e <->
     ec_expectedTextContains evalCase <> None
     /\ extractTextFromResponse response = Threw e) /\
  (createRegexExpectation evalCase response = Threw e <->
   ec_expectedRegex evalCase <> None
   /\ extractTextFromResponse response = Threw e) /\
  (forall caseSensitive,
     ec_expectedTextContains evalCase = None ->
     createTextContainsExpectation caseSensitive evalCase response
     = Returned {| er_pass := true;
                   er_details := Some "No expectedTextContains defined, skipping" |}) /\
  (ec_expectedRegex evalCase = None ->
   createRegexExpectation evalCase response
   = Returned {| er_pass := true;
                 er_details := Some "No expectedRegex defined, skipping" |}).
Proof.
  split; [intros caseSensitive | split; [|split; [intros caseSensitive|]]].
  - unfold createTextContainsExpectation, with_text.
    destruct (ec_expectedTextContains evalCase) as [x|].
    + destruct (extractTextFromResponse response) as [r|e'] eqn:E.
      * destruct (TextFacts.extractTextFromResponse_string _ _ E) as [s ->].
        destruct (Nat.eqb _ 0); split; try discriminate; intros [_ H]; discriminate H.
      * split; [intros H; inversion H; split; [discriminate | reflexivity]|].
        intros [_ H]. inversion H. reflexivity.
    + split; [discriminate | intros [H _]; contradiction].
  - unfold createRegexExpectation, with_text.
    destruct (ec_expectedRegex evalCase) as [x|].
    + destruct (extractTextFromResponse response) as [r|e'] eqn:E.
      * destruct (TextFacts.extractTextFromResponse_string _ _ E) as [s ->].
        destruct (Nat.eqb _ 0); split; try discriminate; intros [_ H]; discriminate H.
      * split; [intros H; inversion H; split; [discriminate | reflexivity]|].
        intros [_ H]. inversion H. reflexivity.
    + split; [discriminate | intros [H _]; contradiction].
  - intros Hnone. unfold createTextContainsExpectation. rewrite Hnone. reflexivity.
  - intros Hnone. unfold createRegexExpectation. rewrite Hnone. reflexivity.
Qed.

(** X9. The error expectation with [expectedError] set fails on every response
    that is not an object with [isError === true].  The value the runner
    hands over for a tool result with a [content] array and no
    [structuredContent] is such a response, whatever the [isError] flag of
    the tool result was. *)
Theorem error_expectation_needs_the_flag :
  (forall evalCase response,
     ec_expectedError evalCase <> JUndefined ->
     hasError response = false ->
     createErrorExpectation evalCase response
     = Returned {| er_pass := false;
                   er_details := Some
                     "Expected tool to return isError: true, but it returned success" |}) /\
  (forall (result : Runner.CallToolResult) l,
     is_nullish (Runner.structuredContent result) = true ->
     Runner.content result = JArr l ->
     hasError (Runner.narrowed result) = false).
Proof.
  split.
  - intros evalCase response Hset Hno. unfold createErrorExpectation. rewrite Hno.
    destruct (ec_expectedError evalCase); try reflexivity. contradiction.
  - intros result l Hsc Hc. unfold Runner.narrowed, nullish_coalesce.
    rewrite Hsc, Hc. reflexivity.
Qed.

Lemma error_expectation_needs_the_flag_witness :
  createErrorExpectation (EvalCase_of_object (as_record errorCaseObject))
    (Runner.narrowed {| Runner.content := JArr [textBlock "Query is REQUIRED"];
                        Runner.structuredContent := JUndefined;
                        Runner.isError := Some true |})
  = Returned {| er_pass := false;
                er_details := Some
                  "Expected tool to return isError: true, but it returned success" |}.
Proof.
  apply (proj1 error_expectation_needs_the_flag).
  - discriminate.
  - apply (proj2 error_expectation_needs_the_flag _ [textBlock "Query is REQUIRED"]);
      reflexivity.
Defined.

End ExpectationMoreFacts.

(** ** normalizeWhitespace *)

Module WhitespaceFacts.
Import Whitespace.

Lemma singleSpaced_replaceRuns (b : bool) (text : string) :
  singleSpaced b (replaceRuns b text) = true.
Proof.
  revert b. induction text as [|c text IH]; intros b; simpl; auto.
  destruct (is_space c) eqn:E.
  - destruct b; [apply IH|]. simpl. apply IH.
  - simpl. rewrite E. apply IH.
Qed.

Lemma singleSpaced_no_leading (text : string) :
  singleSpaced true text = true -> trimStart text = text.
Proof.
  destruct text as [|c text]; simpl; auto.
  destruct (is_space c); [discriminate | reflexivity].
Qed.

Lemma singleSpaced_trimStart (b : bool) (text : string) :
  singleSpaced b text = true -> singleSpaced true (trimStart text) = true.
Proof.
  destruct text as [|c text]; simpl; auto.
  destruct (is_space c) eqn:E.
  - intros H. apply andb_true_iff in H as [_ H].
    rewrite (singleSpaced_no_leading _ H). exact H.
  - intros H. simpl. rewrite E. exact H.
Qed.

Lemma singleSpaced_trimEnd (b : bool) (text : string) :
  singleSpaced b text = true -> singleSpaced b (trimEnd text) = true.
Proof.
  revert b. induction text as [|c text IH]; intros b; simpl; auto.
  destruct (is_space c) eqn:E.
  - intros H. apply andb_true_iff in H as [H1 H2].
    specialize (IH true H2). destruct (trimEnd text); [reflexivity|].
    simpl. rewrite E, H1. exact IH.
  - intros H. specialize (IH false H).
    destruct (trimEnd text); simpl; rewrite E; [reflexivity | exact IH].
Qed.

Lemma endsWithSpace_trimEnd (text : string) : endsWithSpace (trimEnd text) = false.
Proof.
  induction text as [|c text IH]; simpl; auto.
  destruct (trimEnd text) as [|d kept] eqn:K.
  - destruct (is_space c) eqn:E; simpl; auto.
  - exact IH.
Qed.

Lemma trimEnd_fixed (text : string) :
  endsWithSpace text = false -> trimEnd text = text.
Proof.
  induction text as [|c text IH]; simpl; auto.
  destruct text as [|d text].
  - simpl. intros ->. reflexivity.
  - intros H. rewrite (IH H). reflexivity.
Qed.

Lemma replaceRuns_fixed (b : bool) (text : string) :
  singleSpaced b text = true -> replaceRuns b text = text.
Proof.
  revert b. induction text as [|c text IH]; intros b; simpl; auto.
  destruct (is_space c) eqn:E.
  - intros H. apply andb_true_iff in H as [H1 H2].
    apply andb_true_iff in H1 as [Hb Hc].
    destruct b; [discriminate|]. apply Ascii.eqb_eq in Hc. subst c.
    rewrite (IH true H2). reflexivity.
  - intros H. rewrite (IH false H). reflexivity.
Qed.

Lemma singleSpaced_weaken (text : string) :
  singleSpaced true text = true -> singleSpaced false text = true.
Proof.
  destruct text as [|c text]; simpl; auto.
  destruct (is_space c); [discriminate | auto].
Qed.

(** X4. [normalizeWhitespace] yields a text in normal form (no whitespace at
    either end, only single plain spaces inside), leaves a text in normal
    form unchanged, and is therefore idempotent. *)
Theorem normalizeWhitespace_normal_form (text : string) :
  tidy (normalizeWhitespace text) = true /\
  (tidy text = true -> normalizeWhitespace text = text) /\
  normalizeWhitespace (normalizeWhitespace text) = normalizeWhitespace text.
Proof.
  assert (Htidy : forall t, tidy (normalizeWhitespace t) = true).
  { intros t. unfold tidy, normalizeWhitespace, trim.
    rewrite endsWithSpace_trimEnd.
    rewrite (singleSpaced_trimEnd true), ?andb_true_r; auto.
    apply (singleSpaced_trimStart false), singleSpaced_replaceRuns. }
  assert (Hfix : forall t, tidy t = true -> normalizeWhitespace t = t).
  { intros t H. unfold tidy in H. apply andb_true_iff in H as [H1 H2].
    apply negb_true_iff in H2. unfold normalizeWhitespace, trim.
    rewrite (replaceRuns_fixed false t (singleSpaced_weaken t H1)).
    rewrite (singleSpaced_no_leading t H1). apply trimEnd_fixed, H2. }
  split; [apply Htidy|]. split; [apply Hfix|]. apply Hfix, Htidy.
Qed.

Lemma normalizeWhitespace_normal_form_witness :
  normalizeWhitespace "a b" = "a b".
Proof. apply (proj1 (proj2 (normalizeWhitespace_normal_form "a b"))). reflexivity. Defined.

(** Runs of tabs, line breaks and spaces become one space, and the ends
    are trimmed. *)
Example normalizeWhitespace_example :
  normalizeWhitespace ("  Temp:" +:+ nl +:+ nl +:+ "   20 C  ") = "Temp: 20 C".
Proof. reflexivity. Qed.

End WhitespaceFacts.

(** ** The schema expectation *)

Module SchemaFacts.
Import SchemaExpectation Demo.

(** X10. The schema expectation throws in one situation only: the named
    schema is in the registry and its [parse] throws a value that is not a
    [ZodError] and that [String] cannot convert; the [TypeError] of the
    conversion is what it throws.  When it returns, it passes in two
    situations only: the case names no schema (no name, or the empty name),
    or the named schema is in the registry and accepts the response.  A name
    that is not in the registry fails. *)
Theorem schema_expectation_outcomes
    (schemas : option (gmap string ZodSchema))
    (evalCase : EvalCase) (response : JsValue) :
  match createSchemaExpectation schemas evalCase response with
  | Returned result =>
      er_pass result = true <->
      ec_expectedSchemaName evalCase = None
      \/ ec_expectedSchemaName evalCase = Some ""
      \/ exists name registry schema,
           ec_expectedSchemaName evalCase = Some name /\
           schemas = Some registry /\ registry !! name = Some schema /\
           schema response = Parsed
  | Threw typeError =>
      exists name registry schema error,
        ec_expectedSchemaName evalCase = Some name /\
        schemas = Some registry /\ registry !! name = Some schema /\
        schema response = Crashed error /\
        ToString_thrown error = Threw typeError
  end.
Proof.
  unfold createSchemaExpectation.
  destruct (ec_expectedSchemaName evalCase) as [name|];
    [|simpl; split; auto].
  destruct (String.eqb name "") eqn:En.
  - apply String.eqb_eq in En. subst. simpl. split; auto.
  - assert (Hne : name <> "") by (intros ->; discriminate En).
    assert (Hno : forall result : EvalExpectationResult,
               er_pass result = false ->
               (forall n r s, Some name = Some n -> schemas = Some r ->
                              r !! n = Some s -> s response <> Parsed) ->
               er_pass result = true <->
               Some name = None
               \/ Some name = Some ""
               \/ exists n r s,
                    Some name = Some n /\ schemas = Some r /\ r !! n = Some s /\
                    s response = Parsed).
    { intros result Hf Hnot. rewrite Hf. split; [discriminate|].
      intros [H|[H|(n & r & s & Hn & Hr & Hl & Hp)]]; try discriminate.
      - inversion H; subst; contradiction.
      - exfalso. eapply Hnot; eauto. }
    destruct schemas as [registry|]; simpl.
    + destruct (registry !! name) as [schema|] eqn:El.
      * destruct (schema response) as [|issues|error] eqn:Ep.
        -- simpl. split; [|reflexivity]. intros _. right. right.
           exists name, registry, schema. auto.
        -- apply Hno; [reflexivity|]. intros n r s Hn Hr Hl.
           inversion Hn; inversion Hr; subst. rewrite El in Hl.
           inversion Hl; subst. congruence.
        -- destruct (ToString_thrown error) as [text|typeError] eqn:Ec.
           ++ apply Hno; [reflexivity|]. intros n r s Hn Hr Hl.
              inversion Hn; inversion Hr; subst. rewrite El in Hl.
              inversion Hl; subst. congruence.
           ++ exists name, registry, schema, error. auto.
      * destruct (inherited name); (apply Hno; [reflexivity|]);
          intros n r s Hn Hr Hl; inversion Hn; inversion Hr; subst;
          rewrite El in Hl; discriminate.
    + apply (Hno {| er_pass := false; er_details := None |}); [reflexivity|].
      intros n r s _ Hr. discriminate Hr.
Qed.

End SchemaFacts.

(** ** Validation and loading of datasets *)

Module DatasetFacts.
Import SchemaExpectation DatasetLoader Demo.

Lemma own_flat_map_kept (k : string) (shape : ZodShape) (ps : list (string * JsValue)) :
  List.NoDup (List.map fst shape) -> In k (List.map fst shape) ->
  own k (List.flat_map
           (fun kc => match own (fst kc) ps with
                      | Some v => [(fst kc, v)]
                      | None => []
                      end) shape) = own k ps.
Proof.
  induction shape as [|[k' c] shape IH]; simpl; [intros _ []|].
  intros Hnd Hin. inversion Hnd as [|? ? Hnotin Hnd']; subst.
  destruct (String.eqb k k') eqn:E.
  - apply String.eqb_eq in E. subst k'.
    destruct (own k ps) as [v|] eqn:Ev; simpl.
    + rewrite String.eqb_refl. reflexivity.
    + apply ExpectationFacts.own_flat_map_None. exact Hnotin.
  - assert (Hin' : In k (List.map fst shape)).
    { destruct Hin as [->|]; [|assumption]. rewrite String.eqb_refl in E. discriminate. }
    destruct (own k' ps) as [v|]; simpl; [rewrite E|]; apply IH; assumption.
Qed.

Lemma z_object_parse_keeps (shape : ZodShape) (ps out : list (string * JsValue))
    (k : string) :
  z_object_parse shape (JObj ps) = Some out ->
  List.NoDup (List.map fst shape) -> In k (List.map fst shape) ->
  prop k out = prop k ps.
Proof.
  unfold z_object_parse. destruct (forallb _ shape); [|discriminate].
  intros H Hnd Hin. inversion H; subst; clear H.
  unfold prop. rewrite own_flat_map_kept; auto.
Qed.

Lemma z_object_parse_checked (shape : ZodShape) (ps out : list (string * JsValue))
    (k : string) (check : JsValue -> bool) :
  z_object_parse shape (JObj ps) = Some out ->
  In (k, check) shape -> check (prop k ps) = true.
Proof.
  unfold z_object_parse. destruct (forallb _ shape) eqn:F; [|discriminate].
  intros _ Hin. rewrite forallb_forall in F. exact (F (k, check) Hin).
Qed.

Lemma EvalCaseSchema_NoDup : List.NoDup (List.map fst EvalCaseSchema).
Proof.
  simpl. repeat (constructor; [simpl; intros H;
                               repeat (destruct H as [H|H]; [discriminate H|]);
                               exact H|]).
  constructor.
Qed.

(** What a parsed case object is, read as a case. *)
Lemma parsed_case (o : JsValue) (out : list (string * JsValue)) :
  z_object_parse EvalCaseSchema o = Some out ->
  exists ps, o = JObj ps /\
    EvalCase_of_object out = withoutExpectedError (EvalCase_of_object ps) /\
    ec_id (EvalCase_of_object out) <> "" /\
    ec_toolName (EvalCase_of_object out) <> "".
Proof.
  intros H. destruct o as [ | | | | | | |ps]; try discriminate H.
  exists ps. split; [reflexivity|].
  assert (Hkeep : forall k, In k (List.map fst EvalCaseSchema) -> prop k out = prop k ps).
  { intros k Hk. apply (z_object_parse_keeps _ _ _ _ H EvalCaseSchema_NoDup Hk). }
  assert (Hstrip : prop "expectedError" out = JUndefined).
  { apply (ExpectationFacts.z_object_parse_strips _ _ _ _ H).
    simpl. intros Hk. repeat (destruct Hk as [Hk|Hk]; [discriminate Hk|]). exact Hk. }
  assert (Eq : EvalCase_of_object out = withoutExpectedError (EvalCase_of_object ps)).
  { unfold EvalCase_of_object, withoutExpectedError. simpl.
    rewrite Hstrip.
    rewrite !Hkeep by (simpl; tauto). reflexivity. }
  split; [exact Eq|]. rewrite Eq. simpl.
  pose proof (z_object_parse_checked _ _ _ "id" _ H (or_introl eq_refl)) as Hid.
  pose proof (z_object_parse_checked _ _ _ "toolName" _ H
                (or_intror (or_intror (or_introl eq_refl)))) as Htool.
  split.
  - destruct (prop "id" ps) as [ | | | | |s| | ]; try discriminate Hid.
    destruct s; [discriminate Hid | discriminate].
  - destruct (prop "toolName" ps) as [ | | | | |s| | ]; try discriminate Htool.
    destruct s; [discriminate Htool | discriminate].
Qed.

(** X11. A validated case is the input object read as a case, minus its
    [expectedError] directive: every other field the expectations and the
    runner read is unchanged, and [id] and [toolName] are not empty. *)
Theorem validateEvalCase_only_drops_expectedError (o : JsValue) (c : EvalCase) :
  validateEvalCase o = Some c ->
  exists ps, o = JObj ps /\
    c = withoutExpectedError (EvalCase_of_object ps) /\
    ec_id c <> "" /\ ec_toolName c <> "".
Proof.
  unfold validateEvalCase.
  destruct (z_object_parse EvalCaseSchema o) as [out|] eqn:E; [|discriminate].
  intros H. inversion H; subst; clear H. apply parsed_case. exact E.
Qed.

Lemma validateEvalCase_only_drops_expectedError_witness :
  exists ps, errorCaseObject = JObj ps /\
    validateEvalCase errorCaseObject
    = Some (withoutExpectedError (EvalCase_of_object ps)).
Proof.
  destruct (validateEvalCase errorCaseObject) as [c|] eqn:E.
  - destruct (validateEvalCase_only_drops_expectedError errorCaseObject c E)
      as (ps & Ho & Hc & _).
    exists ps. split; [exact Ho|]. rewrite Hc. reflexivity.
  - vm_compute in E. discriminate E.
Defined.

Lemma flat_map_ext_in {A B : Type} (f g : A -> list B) (l : list A) :
  (forall a, In a l -> f a = g a) -> List.flat_map f l = List.flat_map g l.
Proof.
  induction l as [|a l IH]; simpl; auto.
  intros H. rewrite (H a (or_introl eq_refl)), IH; auto.
Qed.

Lemma forallb_ext_in {A : Type} (f g : A -> bool) (l : list A) :
  (forall a, In a l -> f a = g a) -> forallb f l = forallb g l.
Proof.
  induction l as [|a l IH]; simpl; auto.
  intros H. rewrite (H a (or_introl eq_refl)), IH; auto.
Qed.

Lemma z_object_parse_idempotent (shape : ZodShape) (ps out : list (string * JsValue)) :
  List.NoDup (List.map fst shape) ->
  z_object_parse shape (JObj ps) = Some out ->
  z_object_parse shape (JObj out) = Some out.
Proof.
  intros Hnd. unfold z_object_parse.
  destruct (forallb (fun kc => snd kc (prop (fst kc) ps)) shape) eqn:F; [|discriminate].
  intros H. injection H as H.
  assert (Hown : forall kc, In kc shape -> own (fst kc) out = own (fst kc) ps).
  { intros kc Hin. rewrite <- H.
    apply own_flat_map_kept; [exact Hnd | apply in_map; exact Hin]. }
  rewrite (forallb_ext_in _ (fun kc => snd kc (prop (fst kc) ps)))
    by (intros kc Hin; unfold prop; rewrite (Hown kc Hin); reflexivity).
  rewrite F. f_equal. etransitivity; [|exact H].
  apply flat_map_ext_in. intros kc Hin. rewrite (Hown kc Hin). reflexivity.
Qed.

(** X12. Parsing is a projection: the output of a successful parse of a case
    object parses to itself. *)
Theorem case_parse_idempotent (o : JsValue) (out : list (string * JsValue)) :
  z_object_parse EvalCaseSchema o = Some out ->
  z_object_parse EvalCaseSchema (JObj out) = Some out.
Proof.
  intros H. destruct o as [ | | | | | | |ps]; try discriminate H.
  exact (z_object_parse_idempotent _ _ _ EvalCaseSchema_NoDup H).
Qed.

Lemma case_parse_idempotent_witness :
  exists out, z_object_parse EvalCaseSchema errorCaseObject = Some out /\
              z_object_parse EvalCaseSchema (JObj out) = Some out.
Proof.
  destruct (z_object_parse EvalCaseSchema errorCaseObject) as [out|] eqn:E.
  - exists out. split; [reflexivity|].
    exact (case_parse_idempotent errorCaseObject out E).
  - vm_compute in E. discriminate E.
Defined.

(** The shape of a validated dataset object. *)
Lemma validated_shape (data : JsValue) (out : list (string * JsValue)) :
  validateEvalDataset data = Some out ->
  exists ps elems cases,
    data = JObj ps /\
    prop "cases" ps = JArr elems /\
    Forall2 (fun e c => z_object_parse EvalCaseSchema e = Some c) elems cases /\
    cases <> [] /\
    List.filter (fun kv => negb (String.eqb (fst kv) "schemas")) out = out /\
    prop "cases" out = JArr (List.map JObj cases) /\
    as_string (prop "name" out) <> "".
Proof.
  unfold validateEvalDataset. destruct data as [ | | | | | | |ps]; try discriminate.
  destruct (z_string_min1 (prop "name" ps)) eqn:Hname; [|discriminate]. simpl.
  destruct (z_optional z_string (prop "description" ps)
            && z_optional z_record_unknown (prop "metadata" ps)); [|discriminate].
  unfold parseCases. destruct (prop "cases" ps) as [ | | | | | |elems| ] eqn:Hc;
    try discriminate.
  destruct (mapM (z_object_parse EvalCaseSchema) elems) as [cases|] eqn:Hm;
    [|discriminate].
  destruct cases as [|c0 cases]; simpl; [discriminate|].
  intros H. injection H as <-.
  exists ps, elems, (c0 :: cases). split; [reflexivity|]. split; [exact Hc|].
  split; [apply mapM_Some; exact Hm|].
  split; [discriminate|].
  assert (Hn : exists s, own "name" ps = Some (JStr s) /\ s <> "").
  { unfold prop in Hname. destruct (own "name" ps) as [[ | | | | |s| | ]|];
      try discriminate Hname.
    exists s. split; [reflexivity|]. destruct s; [discriminate Hname | discriminate]. }
  destruct Hn as (s & Hs & Hne). unfold kept, prop. rewrite Hs.
  destruct (own "description" ps), (own "metadata" ps); simpl; auto.
Qed.

(** X13. A dataset loaded with validation (the default) has at least one case
    and a non-empty name; each of its cases has a non-empty [id] and
    [toolName] and no [expectedError]; its [schemas] are the ones given to
    the loader, or none. *)
Theorem loaded_dataset_invariants
    (data : JsValue) (schemas : option (gmap string ZodSchema))
    (validate : option bool) (d : LoadedDataset) :
  default true validate = true ->
  loadEvalDatasetFromObject data schemas validate = Some d ->
  casesOf d <> [] /\
  Forall (fun c => ec_id c <> "" /\ ec_toolName c <> ""
                   /\ ec_expectedError c = JUndefined) (casesOf d) /\
  Runner.ds_name (toEvalDataset d) <> "" /\
  ld_schemas d = default ∅ schemas.
Proof.
  intros Hv. unfold loadEvalDatasetFromObject. rewrite Hv.
  destruct (validateEvalDataset data) as [out|] eqn:E; [|discriminate].
  simpl. intros H. injection H as <-.
  destruct (validated_shape _ _ E)
    as (ps & elems & cases & _ & _ & Hall & Hne & Hfilter & Hcases & Hname).
  unfold casesOf, toEvalDataset. simpl. rewrite Hfilter, Hcases.
  rewrite List.map_map. simpl.
  split; [destruct cases; [contradiction | discriminate]|].
  split; [|split; [exact Hname | reflexivity]].
  clear Hne Hcases. induction Hall as [|e c elems cases He _ IH]; simpl; constructor.
  - destruct (parsed_case _ _ He) as (qs & _ & Heq & Hid & Htool).
    split; [exact Hid|]. split; [exact Htool|]. rewrite Heq. reflexivity.
  - exact IH.
Qed.

Lemma loaded_dataset_invariants_witness :
  exists d,
    loadEvalDatasetFromObject (JObj [("name", JStr "demo"); ("cases", JArr [errorCaseObject])])
      None None = Some d /\
    casesOf d <> [] /\
    Forall (fun c => ec_id c <> "" /\ ec_toolName c <> ""
                     /\ ec_expectedError c = JUndefined) (casesOf d).
Proof.
  destruct (loadEvalDatasetFromObject
              (JObj [("name", JStr "demo"); ("cases", JArr [errorCaseObject])])
              None None) as [d|] eqn:E.
  - exists d. split; [reflexivity|].
    destruct (loaded_dataset_invariants _ None None d eq_refl E) as (H1 & H2 & _).
    split; [exact H1 | exact H2].
  - vm_compute in E. discriminate E.
Defined.

Lemma own_filter_other (k : string) (ps : list (string * JsValue)) :
  k <> "schemas" ->
  own k (List.filter (fun kv => negb (String.eqb (fst kv) "schemas")) ps) = own k ps.
Proof.
  intros Hk. induction ps as [|[k' v] ps IH]; simpl; auto.
  destruct (String.eqb k' "schemas") eqn:E; simpl.
  - apply String.eqb_eq in E. subst k'.
    destruct (String.eqb k "schemas") eqn:E'; [|exact IH].
    apply String.eqb_eq in E'. contradiction.
  - rewrite IH. reflexivity.
Qed.

Lemma parsed_cases_view (elems : list JsValue) (cases : list (list (string * JsValue))) :
  Forall2 (fun e c => z_object_parse EvalCaseSchema e = Some c) elems cases ->
  List.map (fun e => EvalCase_of_object (as_record e)) (List.map JObj cases)
  = List.map withoutExpectedError
      (List.map (fun e => EvalCase_of_object (as_record e)) elems).
Proof.
  induction 1 as [|e c elems cases He _ IH]; [reflexivity|].
  destruct (parsed_case _ _ He) as (qs & -> & Heq & _).
  cbn [List.map as_record]. rewrite Heq, IH. reflexivity.
Qed.

(** X14. Validation only removes: when a dataset object passes validation,
    loading it without validation succeeds too, and the validated cases
    are the unvalidated ones with [expectedError] dropped, in the same
    order. *)
Theorem validation_only_drops_expectedError
    (data : JsValue) (schemas : option (gmap string ZodSchema)) (d : LoadedDataset) :
  loadEvalDatasetFromObject data schemas (Some true) = Some d ->
  exists raw,
    loadEvalDatasetFromObject data schemas (Some false) = Some raw /\
    casesOf d = List.map withoutExpectedError (casesOf raw).
Proof.
  unfold loadEvalDatasetFromObject. simpl.
  destruct (validateEvalDataset data) as [out|] eqn:E; [|discriminate].
  simpl. intros H. injection H as <-.
  destruct (validated_shape _ _ E)
    as (ps & elems & cases & -> & Hraw & Hall & _ & Hfilter & Hcases & _).
  eexists. split; [reflexivity|].
  unfold casesOf. simpl. rewrite Hfilter, Hcases.
  unfold prop. rewrite own_filter_other by discriminate.
  fold (prop "cases" ps). rewrite Hraw.
  apply parsed_cases_view. exact Hall.
Qed.

Lemma validation_only_drops_expectedError_witness :
  exists d raw,
    loadEvalDatasetFromObject (JObj [("name", JStr "demo"); ("cases", JArr [errorCaseObject])])
      None (Some false) = Some raw /\
    casesOf d = List.map withoutExpectedError (casesOf raw) /\
    List.map ec_expectedError (casesOf raw) = [JBool true] /\
    List.map ec_expectedError (casesOf d) = [JUndefined].
Proof.
  destruct (loadEvalDatasetFromObject
              (JObj [("name", JStr "demo"); ("cases", JArr [errorCaseObject])])
              None (Some true)) as [d|] eqn:E.
  - destruct (validation_only_drops_expectedError _ None d E) as (raw & Hraw & Heq).
    exists d, raw. split; [exact Hraw|]. split; [exact Heq|].
    vm_compute in E, Hraw. injection E as <-. injection Hraw as <-.
    split; reflexivity.
  - vm_compute in E. discriminate E.
Defined.

End DatasetFacts.


(** ** Further properties of the runner *)

Module RunnerMoreFacts.
Import Runner RunnerTrace Demo.

Lemma failures_last_at_most_one (rs : list EvalCaseResult) :
  (forall i r, rs !! i = Some r -> cr_pass r = false -> S i = length rs) ->
  length (List.filter (fun r => negb (cr_pass r)) rs) <= 1.
Proof.
  induction rs as [|r rs IH]; intros H; simpl; [lia|].
  destruct rs as [|r2 rs].
  - destruct (negb (cr_pass r)); simpl; lia.
  - destruct (cr_pass r) eqn:E.
    + simpl negb. cbv iota. apply IH. intros i x Hi Hx.
      specialize (H (S i) x Hi Hx). simpl in H |- *. lia.
    + specialize (H 0 r eq_refl E). simpl in H. lia.
Qed.

Section MoreFacts.
Variable World : Type.
Variable JudgeClient : Type.
Variable now : World -> Z.

Implicit Types (options : EvalRunnerOptions World JudgeClient)
               (context : EvalExpectationContext World JudgeClient)
               (evalCase : EvalCase) (st : RunState World).

(** X18. Without [stopOnFailure] (absent or false) a run that returns has
    processed every case of the dataset, failed ones included: one result
    per case, in dataset order. *)
Theorem every_case_runs_without_stop options context st res st' :
  default false (stopOnFailure options) = false ->
  runEvalDataset now options context st = (Returned res, st') ->
  total res = length (ds_cases (dataset options)) /\
  List.map cr_id (caseResults res) = List.map ec_id (ds_cases (dataset options)).
Proof.
  intros Hstop. unfold runEvalDataset.
  destruct (runCases now options context (ds_cases (dataset options)) [] st)
    as [[rs|e] st1] eqn:E; [|discriminate].
  intros H. inversion H; subst; clear H. simpl.
  apply (RunnerFacts.runCases_returned World JudgeClient now) in E
    as (new & Hrs & Hids & _ & Hall).
  simpl in Hrs. subst new. specialize (Hall (or_intror Hstop)).
  split; [exact Hall|]. rewrite Hids, Hall, <- (length_map ec_id).
  apply firstn_all.
Qed.

(** X19. With [stopOnFailure] a run that returns reports at most one failed
    case: all results but at most one passed. *)
Theorem at_most_one_failure_with_stop options context st res st' :
  stopOnFailure options = Some true ->
  runEvalDataset now options context st = (Returned res, st') ->
  failed res <= 1 /\ total res <= passed res + 1.
Proof.
  intros Hstop Hrun.
  pose proof (RunnerFacts.stop_on_failure_last World JudgeClient now
                options context st res st' Hstop Hrun) as Hlast.
  unfold runEvalDataset in Hrun.
  destruct (runCases now options context (ds_cases (dataset options)) [] st)
    as [[rs|e] st1]; [|discriminate].
  inversion Hrun; subst; clear Hrun. simpl in *.
  pose proof (failures_last_at_most_one rs Hlast) as Hf.
  pose proof (RunnerFacts.filter_partition_length cr_pass rs). lia.
Qed.

Lemma toolCalls_app (a b : list Call) : toolCalls (a ++ b) = toolCalls a ++ toolCalls b.
Proof. apply flat_map_app. Qed.

Lemma callbackCalls_app (a b : list Call) :
  callbackCalls (a ++ b) = callbackCalls a ++ callbackCalls b.
Proof. apply flat_map_app. Qed.

Lemma expectation_calls_only (extra : list Call) :
  (forall call, In call extra -> exists key id response,
                  call = CallExpectation key id response) ->
  toolCalls extra = [] /\ callbackCalls extra = [].
Proof.
  induction extra as [|c extra IH]; intros H; [split; reflexivity|].
  destruct (H c (or_introl eq_refl)) as (key & id & response & ->).
  simpl. apply IH. intros call Hin. apply H. right. exact Hin.
Qed.

(** The calls of one case: the tool call, then expectation calls only. *)
Lemma runCase_calls options context evalCase st :
  exists extra,
    calls (runCase now options context evalCase st).2
    = calls st ++ CallTool (ec_toolName evalCase) (ec_args evalCase) :: extra /\
    toolCalls extra = [] /\ callbackCalls extra = [].
Proof.
  unfold runCase.
  destruct (callTool _ _ _ _) as [[result|err] w1]; cbv beta iota.
  - simpl negb. cbv iota.
    destruct (RunnerFacts.three_blocks World JudgeClient options
                (enrich options context) evalCase (narrowed result)
                (logged (CallTool (ec_toolName evalCase) (ec_args evalCase)) st w1))
      as (results & st2 & extra & Hrun & Hcalls & Hextra & _).
    rewrite Hrun. exists extra. simpl. rewrite Hcalls. simpl.
    rewrite <- app_assoc. split; [reflexivity|].
    apply expectation_calls_only. intros call Hin.
    destruct (Hextra call Hin) as (key & -> & _). eauto.
  - destruct (negb (truthy _)).
    + destruct (RunnerFacts.three_blocks World JudgeClient options
                  (enrich options context) evalCase JUndefined
                  (logged (CallTool (ec_toolName evalCase) (ec_args evalCase)) st w1))
        as (results & st2 & extra & Hrun & Hcalls & Hextra & _).
      rewrite Hrun. exists extra. simpl. rewrite Hcalls. simpl.
      rewrite <- app_assoc. split; [reflexivity|].
      apply expectation_calls_only. intros call Hin.
      destruct (Hextra call Hin) as (key & -> & _). eauto.
    + exists []. simpl. auto.
Qed.

Lemma runCases_calls options context cases acc st o st' :
  runCases now options context cases acc st = (o, st') ->
  exists added n,
    calls st' = calls st ++ added /\
    toolCalls added
    = List.map (fun c => (ec_toolName c, ec_args c)) (take n cases) /\
    (forall rs, o = Returned rs ->
       exists new, rs = acc ++ new /\ n = length new /\
         callbackCalls added
         = match onCaseComplete options with
           | Some _ => List.map cr_id new
           | None => []
           end).
Proof.
  revert acc st. induction cases as [|c cases IH]; intros acc st; simpl.
  - intros H. inversion H; subst. exists [], 0. rewrite app_nil_r.
    split; [reflexivity|]. split; [reflexivity|].
    intros rs Hrs. inversion Hrs; subst. exists []. rewrite app_nil_r.
    destruct (onCaseComplete options); auto.
  - destruct (runCase_calls options context c st) as (extra & Hc & Ht & Hb).
    destruct (runCase now options context c st) as [cr st1]. simpl in Hc.
    assert (Hloop : forall st2 more,
      calls st2 = calls st1 ++ more -> toolCalls more = [] ->
      callbackCalls more = match onCaseComplete options with
                           | Some _ => [cr_id cr]
                           | None => []
                           end ->
      (if default false (stopOnFailure options) && negb (cr_pass cr)
       then (Returned (acc ++ [cr]), st2)
       else runCases now options context cases (acc ++ [cr]) st2) = (o, st') ->
      exists added n,
        calls st' = calls st ++ added /\
        toolCalls added
        = List.map (fun c => (ec_toolName c, ec_args c)) (take n (c :: cases)) /\
        (forall rs, o = Returned rs ->
           exists new, rs = acc ++ new /\ n = length new /\
             callbackCalls added
             = match onCaseComplete options with
               | Some _ => List.map cr_id new
               | None => []
               end)).
    { intros st2 more Hst2 Hmt Hmb.
      destruct (default false (stopOnFailure options) && negb (cr_pass cr)).
      - intros H. inversion H; subst.
        exists (CallTool (ec_toolName c) (ec_args c) :: extra ++ more), 1.
        split; [rewrite Hst2, Hc, <- app_assoc; reflexivity|].
        split; [simpl; rewrite toolCalls_app, Ht, Hmt, ?take_0; reflexivity|].
        intros rs Hrs. inversion Hrs; subst. exists [cr].
        split; [reflexivity|]. split; [reflexivity|].
        simpl. rewrite callbackCalls_app, Hb, Hmb.
        destruct (onCaseComplete options); reflexivity.
      - intros H. apply IH in H as (added & n & Hadd & Htools & Hret).
        exists (CallTool (ec_toolName c) (ec_args c) :: extra ++ more ++ added), (S n).
        split; [rewrite Hadd, Hst2, Hc, <- !app_assoc; reflexivity|].
        split; [simpl; rewrite !toolCalls_app, Ht, Hmt, Htools; reflexivity|].
        intros rs Hrs. destruct (Hret rs Hrs) as (new & -> & -> & Hcbs).
        exists (cr :: new). rewrite <- app_assoc.
        split; [reflexivity|]. split; [reflexivity|].
        simpl. rewrite !callbackCalls_app, Hb, Hmb, Hcbs.
        destruct (onCaseComplete options); reflexivity. }
    destruct (onCaseComplete options) as [callback|] eqn:Ecb.
    + destruct (callback cr (world st1)) as [[[]|e] w] eqn:Ecall.
      * apply (Hloop _ [CallOnCaseComplete (cr_id cr)]); reflexivity.
      * intros H. inversion H; subst.
        exists (CallTool (ec_toolName c) (ec_args c)
                :: extra ++ [CallOnCaseComplete (cr_id cr)]), 1.
        split; [simpl; rewrite Hc, <- app_assoc; reflexivity|].
        split; [simpl; rewrite toolCalls_app, Ht, ?take_0; reflexivity|].
        intros rs Hrs. discriminate Hrs.
    + intros H. apply (Hloop st1 []); auto. symmetry. apply app_nil_r.
Qed.

(** X21. The runner calls the tool once per processed case, in dataset order,
    with the [toolName] and [args] of the case as they are; cases after an
    early stop are never called.  The completion callback, when there is
    one, is called once per result, in the same order. *)
Theorem one_tool_call_per_processed_case options context st res st' :
  runEvalDataset now options context st = (Returned res, st') ->
  toolCalls (drop (length (calls st)) (calls st'))
  = List.map (fun c => (ec_toolName c, ec_args c))
             (take (total res) (ds_cases (dataset options))) /\
  callbackCalls (drop (length (calls st)) (calls st'))
  = match onCaseComplete options with
    | Some _ => List.map cr_id (caseResults res)
    | None => []
    end.
Proof.
  unfold runEvalDataset.
  destruct (runCases now options context (ds_cases (dataset options)) [] st)
    as [[rs|e] st1] eqn:E; [|discriminate].
  intros H. inversion H; subst; clear H. simpl.
  apply runCases_calls in E as (added & n & Hadd & Htools & Hret).
  destruct (Hret rs eq_refl) as (new & Hrs & -> & Hcbs). simpl in Hrs. subst new.
  rewrite Hadd, drop_app_length. split; [exact Htools | exact Hcbs].
Qed.


(** X17. With none of [exact], [schema], [judge] enabled, a case whose tool call
    returns passes, with an empty expectations record: other keys of the
    [expectations] option change nothing. *)
Theorem case_without_expectations_passes options context evalCase st result w1 :
  callTool (mcp context) (ec_toolName evalCase) (ec_args evalCase) (world st)
  = (Returned result, w1) ->
  (forall key label, In (key, label) kinds -> expectations options !! key = None) ->
  cr_pass (runCase now options context evalCase st).1 = true /\
  cr_expectations (runCase now options context evalCase st).1 = ∅ /\
  calls (runCase now options context evalCase st).2
  = calls st ++ [CallTool (ec_toolName evalCase) (ec_args evalCase)].
Proof.
  intros Hcall Hnone.
  assert (Hskip : forall key label results (s : RunState World),
             In (key, label) kinds ->
             runExpectation key label options (enrich options context) evalCase
               (narrowed result) (results, s) = (results, s)).
  { intros key label results s Hin. unfold runExpectation.
    pose proof (Hnone key label Hin) as Hk.
    destruct (expectations options !! key); [discriminate Hk | reflexivity]. }
  unfold runCase. rewrite Hcall. cbv beta iota. simpl negb. cbv iota.
  rewrite (Hskip "exact" "Exact") by (simpl; auto).
  rewrite (Hskip "schema" "Schema") by (simpl; auto).
  rewrite (Hskip "judge" "Judge") by (simpl; auto).
  simpl. repeat split.
Qed.

End MoreFacts.

Import MoreDemo.

Lemma every_case_runs_without_stop_witness :
  exists res st',
    runEvalDataset now abcAllOptions context start = (Returned res, st') /\
    total res = 3 /\
    List.map cr_id (caseResults res) = ["A"; "B"; "C"].
Proof.
  destruct (runEvalDataset now abcAllOptions context start) as [[res|e] st'] eqn:E.
  - exists res, st'. split; [reflexivity|].
    exact (every_case_runs_without_stop World JudgeClient now
             abcAllOptions context start res st' eq_refl E).
  - vm_compute in E. discriminate E.
Defined.

Lemma at_most_one_failure_with_stop_witness :
  exists res st',
    runEvalDataset now abcOptions context start = (Returned res, st') /\
    failed res <= 1 /\ total res <= passed res + 1.
Proof.
  destruct (runEvalDataset now abcOptions context start) as [[res|e] st'] eqn:E.
  - exists res, st'. split; [reflexivity|].
    exact (at_most_one_failure_with_stop World JudgeClient now
             abcOptions context start res st' eq_refl E).
  - vm_compute in E. discriminate E.
Defined.

Lemma one_tool_call_per_processed_case_witness :
  exists res st',
    runEvalDataset now abcNotifiedOptions context start = (Returned res, st') /\
    toolCalls (calls st')
    = [("echo", [("text", JStr "hi")]); ("x", [("text", JStr "hi")])] /\
    callbackCalls (calls st') = ["A"; "B"].
Proof.
  destruct (runEvalDataset now abcNotifiedOptions context start)
    as [[res|e] st'] eqn:E.
  - exists res, st'. split; [reflexivity|].
    destruct (one_tool_call_per_processed_case World JudgeClient now
                abcNotifiedOptions context start res st' E) as (Ht & Hc).
    vm_compute in E. injection E as <- <-.
    split; [exact Ht | exact Hc].
  - vm_compute in E. discriminate E.
Defined.

Lemma case_without_expectations_passes_witness :
  cr_pass (runCase now textOnlyOptions context greetingCase start).1 = true /\
  cr_expectations (runCase now textOnlyOptions context greetingCase start).1 = ∅.
Proof.
  destruct (case_without_expectations_passes World JudgeClient now
              textOnlyOptions context greetingCase start (echoed "hi") 7%Z eq_refl)
    as (Hp & He & _).
  - intros key label [H|[H|[H|[]]]]; inversion H; reflexivity.
  - split; [exact Hp | exact He].
Defined.

End RunnerMoreFacts.

(** ** The runner, with the conversions inside its catch blocks *)

Module StrictRunnerFacts.
Import Runner Demo.

Lemma ToString_thrown_returns err text :
  ToString_thrown err = Returned text -> text = Thrown_String err.
Proof.
  destruct err as [name msg|v]; simpl; intros H.
  - inversion H. reflexivity.
  - apply TextFacts.ToString_returns. exact H.
Qed.

Lemma ToString_message_returns err message :
  ToString_message err = Returned message -> message = Thrown_message err.
Proof.
  destruct err as [name msg|v]; simpl; intros H.
  - inversion H. reflexivity.
  - apply TextFacts.ToString_returns. exact H.
Qed.

Lemma ToString_thrown_throws err e :
  ToString_thrown err = Threw e -> e = primitiveTypeError.
Proof.
  destruct err as [name msg|v]; simpl; intros H.
  - discriminate H.
  - eapply TextFacts.ToString_throws. exact H.
Qed.

Lemma ToString_message_throws err e :
  ToString_message err = Threw e -> e = primitiveTypeError.
Proof.
  destruct err as [name msg|v]; simpl; intros H.
  - discriminate H.
  - eapply TextFacts.ToString_throws. exact H.
Qed.

Section Facts.
Variable World : Type.
Variable JudgeClient : Type.
Variable now : World -> Z.

Implicit Types (options : EvalRunnerOptions World JudgeClient)
               (context : EvalExpectationContext World JudgeClient)
               (evalCase : EvalCase) (st : RunState World)
               (results : gmap string EvalExpectationResult).

(** *** What the conversions leave unchanged

    Whenever the runner with the conversions returns, [Runner] returns the
    same result in the same state. *)

Lemma runExpectation_refines key label options context evalCase response acc
    results st' :
  StrictRunner.runExpectation key label options context evalCase response acc
  = (Returned results, st') ->
  runExpectation key label options context evalCase response acc = (results, st').
Proof.
  destruct acc as [rs st]. unfold StrictRunner.runExpectation, runExpectation.
  destruct (expectations options !! key) as [f|].
  - destruct (f context evalCase response (world st)) as [[result|err] w].
    + intros H. inversion H. reflexivity.
    + destruct (ToString_thrown err) as [text|e] eqn:E; intros H; inversion H.
      apply ToString_thrown_returns in E. subst. reflexivity.
  - intros H. inversion H. reflexivity.
Qed.

Lemma blocks_refine options context evalCase response st results st' :
  StrictRunner.next
    (StrictRunner.next
       (StrictRunner.runExpectation "exact" "Exact" options context evalCase
          response (∅, st))
       (StrictRunner.runExpectation "schema" "Schema" options context evalCase
          response))
    (StrictRunner.runExpectation "judge" "Judge" options context evalCase response)
  = (Returned results, st') ->
  runExpectation "judge" "Judge" options context evalCase response
    (runExpectation "schema" "Schema" options context evalCase response
       (runExpectation "exact" "Exact" options context evalCase response (∅, st)))
  = (results, st').
Proof.
  destruct (StrictRunner.runExpectation "exact" _ _ _ _ _ _) as [[r1|e1] s1] eqn:E1;
    [|discriminate].
  apply runExpectation_refines in E1. rewrite E1. unfold StrictRunner.next at 2.
  destruct (StrictRunner.runExpectation "schema" _ _ _ _ _ _) as [[r2|e2] s2] eqn:E2;
    [|discriminate].
  apply runExpectation_refines in E2. rewrite E2. unfold StrictRunner.next.
  apply runExpectation_refines.
Qed.

Lemma runCase_refines options context evalCase st caseResult st' :
  StrictRunner.runCase now options context evalCase st = (Returned caseResult, st') ->
  runCase now options context evalCase st = (caseResult, st').
Proof.
  unfold StrictRunner.runCase, runCase.
  destruct (callTool _ _ _ _) as [[result|err] w1]; cbv beta iota zeta.
  - simpl negb. cbv iota.
    destruct (StrictRunner.next _ _) as [[results|e] st2] eqn:E; [|discriminate].
    apply blocks_refine in E. rewrite E. intros H. inversion H. reflexivity.
  - destruct (ToString_message err) as [message|e] eqn:Em; [|discriminate].
    apply ToString_message_returns in Em. subst message.
    destruct (negb (truthy (Some (Thrown_message err)))) eqn:Et.
    + destruct (StrictRunner.next _ _) as [[results|e] st2] eqn:E; [|discriminate].
      apply blocks_refine in E. rewrite E. intros H. inversion H. reflexivity.
    + intros H. inversion H. reflexivity.
Qed.

Lemma runCases_refines options context cases caseResults st rs st' :
  StrictRunner.runCases now options context cases caseResults st = (Returned rs, st') ->
  runCases now options context cases caseResults st = (Returned rs, st').
Proof.
  revert caseResults st. induction cases as [|c cases IH]; intros caseResults st.
  - simpl. auto.
  - simpl.
    destruct (StrictRunner.runCase now options context c st) as [[cr|e] st1] eqn:E;
      [|discriminate].
    apply runCase_refines in E. rewrite E.
    destruct (match onCaseComplete options with Some _ => _ | None => _ end)
      as [[[]|e] st2]; [|discriminate].
    destruct (default false (stopOnFailure options) && negb (cr_pass cr)); auto.
Qed.

Lemma runEvalDataset_refines options context st res st' :
  StrictRunner.runEvalDataset now options context st = (Returned res, st') ->
  runEvalDataset now options context st = (Returned res, st').
Proof.
  unfold StrictRunner.runEvalDataset, runEvalDataset.
  destruct (StrictRunner.runCases _ _ _ _ _ _) as [[rs|e] st1] eqn:E; [|discriminate].
  apply runCases_refines in E. rewrite E. auto.
Qed.

(** *** When the conversions throw *)

Lemma runExpectation_throws key label options context evalCase response acc e st' :
  StrictRunner.runExpectation key label options context evalCase response acc
  = (Threw e, st') ->
  e = primitiveTypeError.
Proof.
  destruct acc as [rs st]. unfold StrictRunner.runExpectation.
  destruct (expectations options !! key) as [f|]; [|discriminate].
  destruct (f context evalCase response (world st)) as [[result|err] w];
    [discriminate|].
  destruct (ToString_thrown err) as [text|x] eqn:E; intros H; inversion H; subst.
  eapply ToString_thrown_throws. exact E.
Qed.

Lemma blocks_throw options context evalCase response st e st' :
  StrictRunner.next
    (StrictRunner.next
       (StrictRunner.runExpectation "exact" "Exact" options context evalCase
          response (∅, st))
       (StrictRunner.runExpectation "schema" "Schema" options context evalCase
          response))
    (StrictRunner.runExpectation "judge" "Judge" options context evalCase response)
  = (Threw e, st') ->
  e = primitiveTypeError.
Proof.
  destruct (StrictRunner.runExpectation "exact" _ _ _ _ _ _) as [[r1|e1] s1] eqn:E1.
  - unfold StrictRunner.next at 2.
    destruct (StrictRunner.runExpectation "schema" _ _ _ _ _ _) as [[r2|e2] s2] eqn:E2.
    + unfold StrictRunner.next. apply runExpectation_throws.
    + apply runExpectation_throws in E2. simpl. intros H. inversion H. congruence.
  - apply runExpectation_throws in E1. simpl. intros H. inversion H. congruence.
Qed.

Lemma runCase_throws options context evalCase st e st' :
  StrictRunner.runCase now options context evalCase st = (Threw e, st') ->
  e = primitiveTypeError.
Proof.
  unfold StrictRunner.runCase.
  destruct (callTool _ _ _ _) as [[result|err] w1]; cbv beta iota zeta.
  - simpl negb. cbv iota.
    destruct (StrictRunner.next _ _) as [[results|x] st2] eqn:E; [discriminate|].
    apply blocks_throw in E. intros H. inversion H. congruence.
  - destruct (ToString_message err) as [message|x] eqn:Em.
    + destruct (negb (truthy (Some message))); [|discriminate].
      destruct (StrictRunner.next _ _) as [[results|x] st2] eqn:E; [discriminate|].
      apply blocks_throw in E. intros H. inversion H. congruence.
    + apply ToString_message_throws in Em. intros H. inversion H. congruence.
Qed.

Lemma runCases_throws options context cases caseResults st e st' :
  onCaseComplete options = None ->
  StrictRunner.runCases now options context cases caseResults st = (Threw e, st') ->
  e = primitiveTypeError.
Proof.
  intros Hcb. revert caseResults st.
  induction cases as [|c cases IH]; intros caseResults st; simpl; [discriminate|].
  destruct (StrictRunner.runCase now options context c st) as [[cr|x] st1] eqn:E.
  - rewrite Hcb.
    destruct (default false (stopOnFailure options) && negb (cr_pass cr));
      [discriminate | apply IH].
  - apply runCase_throws in E. intros H. inversion H. congruence.
Qed.

(** *** When every thrown value can be converted *)

Lemma runExpectation_returns key label options context evalCase response acc :
  In (key, label) kinds ->
  StrictRunner.expectationsThrowConvertible options ->
  is_returned
    (StrictRunner.runExpectation key label options context evalCase response acc).1
  = true.
Proof.
  intros Hin Hconv. destruct acc as [rs st]. unfold StrictRunner.runExpectation.
  destruct (expectations options !! key) as [f|] eqn:Ef; [|reflexivity].
  destruct (f context evalCase response (world st)) as [[result|err] w] eqn:E;
    [reflexivity|].
  pose proof (Hconv key label f Hin Ef _ _ _ _ _ _ E) as Hr.
  destruct (ToString_thrown err); [reflexivity | discriminate Hr].
Qed.

Lemma blocks_return options context evalCase response st :
  StrictRunner.expectationsThrowConvertible options ->
  is_returned
    (StrictRunner.next
       (StrictRunner.next
          (StrictRunner.runExpectation "exact" "Exact" options context evalCase
             response (∅, st))
          (StrictRunner.runExpectation "schema" "Schema" options context evalCase
             response))
       (StrictRunner.runExpectation "judge" "Judge" options context evalCase
          response)).1
  = true.
Proof.
  intros Hconv.
  pose proof (runExpectation_returns "exact" "Exact" options context evalCase
                response (∅, st) (or_introl eq_refl) Hconv) as H1.
  destruct (StrictRunner.runExpectation "exact" _ _ _ _ _ _) as [[r1|e1] s1];
    [|discriminate H1].
  unfold StrictRunner.next at 2.
  pose proof (runExpectation_returns "schema" "Schema" options context evalCase
                response (r1, s1) (or_intror (or_introl eq_refl)) Hconv) as H2.
  destruct (StrictRunner.runExpectation "schema" _ _ _ _ _ _) as [[r2|e2] s2];
    [|discriminate H2].
  unfold StrictRunner.next.
  apply (runExpectation_returns "judge" "Judge"); [|exact Hconv].
  right. right. left. reflexivity.
Qed.

Lemma runCase_returns options context evalCase st :
  StrictRunner.toolThrowsConvertible context ->
  StrictRunner.expectationsThrowConvertible options ->
  is_returned (StrictRunner.runCase now options context evalCase st).1 = true.
Proof.
  intros Htool Hconv. unfold StrictRunner.runCase.
  destruct (callTool _ _ _ _) as [[result|err] w1] eqn:Ecall; cbv beta iota zeta.
  - simpl negb. cbv iota.
    pose proof (blocks_return options (enrich options context) evalCase
                  (narrowed result)
                  (logged (CallTool (ec_toolName evalCase) (ec_args evalCase)) st w1)
                  Hconv) as Hb.
    destruct (StrictRunner.next _ _) as [[results|x] st2];
      [reflexivity | discriminate Hb].
  - pose proof (Htool _ _ _ _ _ Ecall) as Hm.
    destruct (ToString_message err) as [message|x]; [|discriminate Hm].
    destruct (negb (truthy (Some message))); [|reflexivity].
    pose proof (blocks_return options (enrich options context) evalCase JUndefined
                  (logged (CallTool (ec_toolName evalCase) (ec_args evalCase)) st w1)
                  Hconv) as Hb.
    destruct (StrictRunner.next _ _) as [[results|x] st2];
      [reflexivity | discriminate Hb].
Qed.

Lemma runCases_returns options context cases caseResults st :
  onCaseComplete options = None ->
  StrictRunner.toolThrowsConvertible context ->
  StrictRunner.expectationsThrowConvertible options ->
  is_returned (StrictRunner.runCases now options context cases caseResults st).1
  = true.
Proof.
  intros Hcb Htool Hconv. revert caseResults st.
  induction cases as [|c cases IH]; intros caseResults st; simpl; [reflexivity|].
  pose proof (runCase_returns options context c st Htool Hconv) as Hc.
  destruct (StrictRunner.runCase now options context c st) as [[cr|x] st1];
    [|discriminate Hc].
  rewrite Hcb.
  destruct (default false (stopOnFailure options) && negb (cr_pass cr));
    [reflexivity | apply IH].
Qed.



(** X15. When the tool call of a case throws, the runner reads the message
    of the thrown value.  With a message that is not empty the case fails
    with that message as [error], [response] stays undefined, the
    expectations record is empty and the tool call is the only call made
    for the case: no expectation function runs.  When the thrown value is
    not an [Error] and cannot be converted to a string, the [TypeError] of
    the conversion leaves the runner and no case result is produced. *)
Theorem tool_throw_skips_expectations options context evalCase st err w1 :
  callTool (mcp context) (ec_toolName evalCase) (ec_args evalCase) (world st)
  = (Threw err, w1) ->
  (forall message,
     ToString_message err = Returned message -> message <> "" ->
     StrictRunner.runCase now options context evalCase st
     = (Returned {| cr_id := ec_id evalCase;
                    cr_pass := false;
                    cr_response := JUndefined;
                    cr_error := Some message;
                    cr_expectations := ∅;
                    cr_durationMs := now w1 - now (world st) |},
        logged (CallTool (ec_toolName evalCase) (ec_args evalCase)) st w1)) /\
  (forall typeError,
     ToString_message err = Threw typeError ->
     StrictRunner.runCase now options context evalCase st
     = (Threw typeError,
        logged (CallTool (ec_toolName evalCase) (ec_args evalCase)) st w1)).
Proof.
  intros Hcall. unfold StrictRunner.runCase. rewrite Hcall. cbv beta iota zeta.
  split.
  - intros message -> Hne.
    assert (Ht : truthy (Some message) = true).
    { simpl. destruct (String.eqb message "") eqn:E; auto.
      apply String.eqb_eq in E. contradiction. }
    rewrite Ht. reflexivity.
  - intros typeError ->. reflexivity.
Qed.


(** X20. A run without completion callback rejects only when a conversion
    inside one of its catch blocks throws, and then with the [TypeError] of
    that conversion; when every value thrown by the tool calls and by the
    enabled expectations can be converted, it returns a result. *)
Theorem run_without_callback_rejects_only_on_conversion options context st :
  onCaseComplete options = None ->
  (forall e st',
     StrictRunner.runEvalDataset now options context st = (Threw e, st') ->
     e = primitiveTypeError) /\
  (StrictRunner.toolThrowsConvertible context ->
   StrictRunner.expectationsThrowConvertible options ->
   exists res st',
     StrictRunner.runEvalDataset now options context st = (Returned res, st')).
Proof.
  intros Hcb. unfold StrictRunner.runEvalDataset. split.
  - intros e st'.
    destruct (StrictRunner.runCases _ _ _ _ _ _) as [[rs|x] st1] eqn:E; [discriminate|].
    apply runCases_throws in E; [|exact Hcb]. intros H. inversion H. congruence.
  - intros Htool Hconv.
    pose proof (runCases_returns options context (ds_cases (dataset options)) [] st
                  Hcb Htool Hconv) as Hr.
    destruct (StrictRunner.runCases _ _ _ _ _ _) as [[rs|x] st1];
      [eauto | discriminate Hr].
Qed.

End Facts.

(** C3 at an [exact] expectation that throws [{toString: 1}] next to an
    accepting [judge]: the conversion of the thrown value inside the catch
    block throws, so no slot is written for [exact], the [judge] sibling is
    never called, no case result is produced and the run rejects with the
    [TypeError] of the conversion.  The same options with an [exact] that
    throws an [Error] show what the catch block is there for: the run
    returns, [exact] holds the failed result naming the kind and the error,
    and [judge] holds its own result. *)
Theorem unconvertible_throw_aborts_the_run :
  expectations unprintableOptions !! "exact" = Some (throwingValue unprintable) /\
  expectations unprintableOptions !! "judge" = Some accepting /\
  ToString_thrown (ThrownValue unprintable) = Threw primitiveTypeError /\
  StrictRunner.runEvalDataset now unprintableOptions context start
  = (Threw primitiveTypeError,
     {| world := 7%Z;
        calls := [CallTool "echo" [("text", JStr "hi")];
                  CallExpectation "exact" "A" (JArr [textBlock "hi"])] |}) /\
  exists res st',
    StrictRunner.runEvalDataset now faultyOptions context start = (Returned res, st') /\
    List.map (fun r => (cr_expectations r !! "exact", cr_expectations r !! "judge"))
             (caseResults res)
    = [(Some {| er_pass := false;
                er_details := Some "Exact expectation threw error: Error: bad config" |},
        Some {| er_pass := true; er_details := None |})] /\
    calls st' = [CallTool "echo" [("text", JStr "hi")];
                 CallExpectation "exact" "A" (JArr [textBlock "hi"]);
                 CallExpectation "judge" "A" (JArr [textBlock "hi"])].
Proof.
  split; [reflexivity|]. split; [reflexivity|]. split; [reflexivity|].
  split; [vm_compute; reflexivity|].
  eexists _, _. split; [vm_compute; reflexivity|]. split; vm_compute; reflexivity.
Qed.

Lemma demo_tool_throws_convertible : StrictRunner.toolThrowsConvertible context.
Proof.
  intros name args w err w'. unfold context, server. simpl.
  destruct (String.eqb name "echo"); [discriminate|].
  destruct (String.eqb name "silent"); intros H; inversion H; reflexivity.
Qed.

Lemma faulty_expectations_throw_convertible :
  StrictRunner.expectationsThrowConvertible faultyOptions.
Proof.
  intros key label f Hin Hf enrichedContext evalCase response w err w' H.
  destruct Hin as [E|[E|[E|[]]]]; inversion E; subst; vm_compute in Hf;
    inversion Hf; subst; vm_compute in H; inversion H; reflexivity.
Qed.

Lemma tool_throw_skips_expectations_witness :
  StrictRunner.runCase now abcOptions context (mkCase "B" "x" "hi") start
  = (Returned {| cr_id := "B"; cr_pass := false; cr_response := JUndefined;
                 cr_error := Some "x"; cr_expectations := ∅;
                 cr_durationMs := 1 |},
     logged (CallTool "x" [("text", JStr "hi")]) start 1%Z).
Proof.
  refine (proj1 (tool_throw_skips_expectations World JudgeClient now
                   abcOptions context (mkCase "B" "x" "hi") start
                   (ThrownError "Error" "x") 1%Z eq_refl) "x" eq_refl _).
  discriminate.
Defined.


Lemma run_without_callback_rejects_only_on_conversion_witness :
  exists res st',
    StrictRunner.runEvalDataset now faultyOptions context start = (Returned res, st').
Proof.
  exact (proj2 (run_without_callback_rejects_only_on_conversion World JudgeClient now
                  faultyOptions context start eq_refl)
               demo_tool_throws_convertible faulty_expectations_throw_convertible).
Defined.

End StrictRunnerFacts.


(** ** Conformance checks *)

Module ConformanceFacts.
Import Runner Conformance.

Lemma toolComplaint_nil (tool : Tool) :
  toolComplaint tool = [] <-> wellFormed tool = true.
Proof.
  unfold toolComplaint, wellFormed.
  destruct (truthy_value (tool_name tool)); simpl; [|split; discriminate].
  destruct (truthy_value (tool_inputSchema tool)); simpl; [|split; discriminate].
  destruct (match member "type" (tool_inputSchema tool) with
            | JStr t => String.eqb t "object"
            | _ => false
            end); simpl; split; auto; discriminate.
Qed.

Lemma complaints_nil (tools : list Tool) :
  List.flat_map toolComplaint tools = [] <->
  forall t, In t tools -> wellFormed t = true.
Proof.
  induction tools as [|t tools IH]; simpl.
  - split; [intros _ t [] | reflexivity].
  - split.
    + intros H. apply app_eq_nil in H as [H1 H2]. intros x [<-|Hx].
      * apply toolComplaint_nil. exact H1.
      * apply IH; assumption.
    + intros H. rewrite (proj2 (toolComplaint_nil t) (H t (or_introl eq_refl))).
      apply IH. intros x Hx. apply H. right. exact Hx.
Qed.

Lemma listed_iff (tools : list Tool) (name : string) :
  listed tools name = true <-> exists t, In t tools /\ tool_name t = JStr name.
Proof.
  unfold listed. rewrite existsb_exists. split.
  - intros (t & Hin & Ht). exists t. split; [exact Hin|].
    destruct (tool_name t); try discriminate Ht.
    apply String.eqb_eq in Ht. subst. reflexivity.
  - intros (t & Hin & Ht). exists t. split; [exact Hin|].
    rewrite Ht. apply String.eqb_refl.
Qed.

Lemma missing_nil (tools : list Tool) (required : list string) :
  List.filter (fun name => negb (listed tools name)) required = [] <->
  forall name, In name required -> exists t, In t tools /\ tool_name t = JStr name.
Proof.
  induction required as [|name required IH]; simpl.
  - split; [intros _ n [] | reflexivity].
  - destruct (listed tools name) eqn:E; simpl.
    + rewrite IH. split.
      * intros H n [<-|Hn]; [apply listed_iff; exact E | auto].
      * intros H n Hn. apply H. right. exact Hn.
    + split; [discriminate|]. intros H.
      specialize (H name (or_introl eq_refl)). apply listed_iff in H. congruence.
Qed.

Lemma length_eqb_0 {A : Type} (l : list A) : Nat.eqb (length l) 0 = true <-> l = [].
Proof. destruct l; simpl; split; auto; discriminate. Qed.

Section Facts.
Variable World : Type.

Implicit Types (mcp : MCPFixtureFull World) (options : MCPConformanceOptions)
               (w : World).


(** X23. When [listTools] throws a value whose message can be read (an
    [Error], or a value that [String] converts), the run stops there: the
    result fails, its last check is the failed [list_tools_succeeds]
    carrying that message, and no tool is called (the world is the one
    [listTools] left). *)
Theorem conformance_stops_when_listing_fails mcp options w error message w1 :
  listTools mcp w = (Threw error, w1) ->
  ToString_message error = Returned message ->
  (runConformanceChecks mcp options w).2 = w1 /\
  conf_pass (runConformanceChecks mcp options w).1 = false /\
  last (conf_checks (runConformanceChecks mcp options w).1)
  = Some {| check_name := "list_tools_succeeds";
            check_pass := false;
            check_message := "listTools failed: " +:+ message |} /\
  forall c, In c (conf_checks (runConformanceChecks mcp options w).1) ->
            check_name c <> "invalid_tool_returns_error".
Proof.
  intros Hl Hm. unfold runConformanceChecks. rewrite Hl.
  assert (Thrown_message error = message) as ->.
  { destruct error as [name msg|v]; simpl in *.
    - inversion Hm. reflexivity.
    - symmetry. apply TextFacts.ToString_returns. exact Hm. }
  cbn [fst snd conf_pass conf_checks]. split; [reflexivity|]. split; [reflexivity|].
  split; [apply last_snoc|].
  intros c Hin. apply in_app_or in Hin as [Hin|[<-|[]]]; [|discriminate].
  destruct (default true (checkServerInfo options)); [|destruct Hin].
  destruct Hin as [<-|[]]. discriminate.
Qed.

(** X24. When [listTools] returns, the server conforms exactly when: its info
    is present (if that is checked), every required tool is listed, every
    listed tool is well formed (if schemas are validated), and calling a
    tool that does not exist throws or returns [isError: true]. *)
Theorem conformance_pass_characterized mcp options w tools w1 called w2 :
  listTools mcp w = (Returned tools, w1) ->
  callTool (fixture mcp) "__nonexistent_tool__" [] w1 = (called, w2) ->
  (conf_pass (runConformanceChecks mcp options w).1 = true <->
   (default true (checkServerInfo options) = true -> getServerInfo mcp w <> None) /\
   (forall name, In name (default [] (requiredTools options)) ->
      exists t, In t tools /\ tool_name t = JStr name) /\
   (default true (validateSchemas options) = true ->
      forall t, In t tools -> wellFormed t = true) /\
   match called with
   | Returned result => isError result = Some true
   | Threw _ => True
   end).
Proof.
  intros Hl Hc. unfold runConformanceChecks. rewrite Hl, Hc.
  cbn [fst conf_pass conf_checks].
  assert (Hreq : forall cs,
    forallb check_pass
      (if Nat.ltb 0 (length (default [] (requiredTools options)))
       then cs ++ [requiredToolsCheck tools (default [] (requiredTools options))]
       else cs) = true <->
    forallb check_pass cs = true /\
    forall name, In name (default [] (requiredTools options)) ->
      exists t, In t tools /\ tool_name t = JStr name).
  { intros cs. destruct (default [] (requiredTools options)) as [|n required] eqn:Er.
    - simpl. split; [intros H; split; [exact H | intros name []] | tauto].
    - cbn [length Nat.ltb Nat.leb]. rewrite forallb_app, andb_true_iff.
      cbn [forallb requiredToolsCheck check_pass]. rewrite andb_true_r.
      rewrite length_eqb_0, missing_nil. reflexivity. }
  assert (Hval : forall cs,
    forallb check_pass
      (if default true (validateSchemas options) && Nat.ltb 0 (length tools)
       then cs ++ [schemasCheck tools] else cs) = true <->
    forallb check_pass cs = true /\
    (default true (validateSchemas options) = true ->
       forall t, In t tools -> wellFormed t = true)).
  { intros cs. destruct (default true (validateSchemas options)); simpl.
    - destruct tools as [|t tools'] eqn:Et.
      + simpl. split; [intros H; split; [exact H | intros _ x []] | tauto].
      + cbn [length Nat.ltb Nat.leb]. rewrite forallb_app, andb_true_iff.
        cbn [forallb schemasCheck check_pass]. rewrite andb_true_r.
        rewrite length_eqb_0, complaints_nil. split.
        * intros [H1 H2]. split; [exact H1 | intros _; exact H2].
        * intros [H1 H2]. split; [exact H1 | apply H2; reflexivity].
    - split; [intros H; split; [exact H | discriminate] | tauto]. }
  rewrite forallb_app, andb_true_iff, Hval, Hreq, forallb_app, andb_true_iff.
  cbn [forallb check_pass]. rewrite !andb_true_r.
  assert (Hsrv : forallb check_pass
                   (if default true (checkServerInfo options)
                    then [serverInfoCheck (getServerInfo mcp w)] else []) = true <->
                 (default true (checkServerInfo options) = true ->
                  getServerInfo mcp w <> None)).
  { destruct (default true (checkServerInfo options)); simpl.
    - destruct (getServerInfo mcp w); simpl; split; auto; try discriminate.
      intros H. exfalso. apply H; reflexivity.
    - split; [discriminate | reflexivity]. }
  rewrite Hsrv.
  assert (Hinv : check_pass (invalidToolCheck called) = true <->
                 match called with
                 | Returned result => isError result = Some true
                 | Threw _ => True
                 end).
  { destruct called as [result|e]; simpl; [|tauto].
    destruct (isError result) as [[|]|]; split; auto; discriminate. }
  rewrite Hinv. tauto.
Qed.

End Facts.

Import Demo MoreDemo.

Lemma conformance_stops_when_listing_fails_witness :
  (runConformanceChecks unlistableServer requireEcho 0%Z).2 = 2%Z /\
  conf_pass (runConformanceChecks unlistableServer requireEcho 0%Z).1 = false.
Proof.
  destruct (conformance_stops_when_listing_fails World unlistableServer requireEcho
              0%Z (ThrownError "Error" "connection closed") "connection closed"
              2%Z eq_refl eq_refl)
    as (Hw & Hp & _).
  split; [exact Hw | exact Hp].
Defined.

Lemma conformance_pass_characterized_witness :
  conf_pass (runConformanceChecks conformingServer requireEcho 0%Z).1 = true.
Proof.
  apply (conformance_pass_characterized World conformingServer requireEcho 0%Z
           [echoTool] 2%Z (Threw (ThrownError "Error" "__nonexistent_tool__")) 3%Z
           eq_refl eq_refl).
  split; [intros _; discriminate|]. split.
  - intros name [<-|[]]. exists echoTool. split; [left; reflexivity | reflexivity].
  - split; [|exact I]. intros _ t [<-|[]]. reflexivity.
Defined.

End ConformanceFacts.

(** ** The judge expectation *)

Module JudgeFacts.
Import Runner SchemaExpectation JudgeExpectation.

Section Facts.
Variable World : Type.
Variable JudgeClient : Type.
Variable Number : Type.
Variable Number_ge : Number -> Number -> bool.
Variable one zero defaultThreshold : Number.
Variable toFixed2 : Number -> string.
Variable Number_String : Number -> string.
Variable evaluate :
  JudgeClient -> JsValue -> JsValue -> JsValue -> Async World (LLMJudgeResult Number).

(** X25. A case without [judgeConfigId] (or with the empty id) passes with
    the skip result, without the judge being called; a case that asks for
    judging fails, again without any call, when the context has no judge
    client or the id names no configuration.  The expectation throws in one
    situation only: the judge is called and throws a value that [String]
    cannot convert; the [TypeError] of the conversion is what it throws. *)
Theorem judge_expectation_outcomes
    (configs : gmap string (JudgeConfig Number))
    (context : EvalExpectationContext World JudgeClient)
    (evalCase : EvalCase) (response : JsValue) (w : World) :
  (ec_judgeConfigId evalCase = None \/ ec_judgeConfigId evalCase = Some "" ->
   createJudgeExpectation Number_ge one zero defaultThreshold toFixed2
     Number_String evaluate configs context evalCase response w
   = (Returned {| er_pass := true;
                  er_details := Some "No judgeConfigId defined, skipping" |}, w)) /\
  (forall id, ec_judgeConfigId evalCase = Some id -> id <> "" ->
     judgeClient context = None \/ lookupConfig configs id = None ->
     exists details,
       createJudgeExpectation Number_ge one zero defaultThreshold toFixed2
         Number_String evaluate configs context evalCase response w
       = (Returned {| er_pass := false; er_details := details |}, w)) /\
  (forall typeError w',
     createJudgeExpectation Number_ge one zero defaultThreshold toFixed2
       Number_String evaluate configs context evalCase response w
     = (Threw typeError, w') ->
     exists id client config error,
       ec_judgeConfigId evalCase = Some id /\
       judgeClient context = Some client /\
       lookupConfig configs id = Some config /\
       evaluate client response
         (nullish_coalesce
            (match ec_expectedExact evalCase with
             | JUndefined => reference config
             | expected => expected
             end) JNull)
         (rubric config) w = (Threw error, w') /\
       ToString_thrown error = Threw typeError).
Proof.
  unfold createJudgeExpectation.
  destruct (ec_judgeConfigId evalCase) as [id|].
  - destruct (String.eqb id "") eqn:Eid.
    + apply String.eqb_eq in Eid. subst id.
      split; [auto|]. split; [|discriminate].
      intros id H Hne. inversion H; subst. contradiction.
    + assert (Hid : id <> "") by (intros ->; discriminate Eid).
      split; [intros [H|H]; [discriminate H | inversion H; subst; contradiction]|].
      destruct (judgeClient context) as [client|].
      * destruct (lookupConfig configs id) as [config|] eqn:Ec.
        -- split.
           ++ intros i Hi _ [H|H]; [discriminate H|].
              inversion Hi; subst. rewrite Ec in H. discriminate H.
           ++ intros typeError w'.
              destruct (evaluate client response _ (rubric config) w)
                as [[r|error] w1] eqn:Ev; [discriminate|].
              destruct (ToString_thrown error) as [text|x] eqn:Et; [discriminate|].
              intros H. inversion H; subst.
              exists id, client, config, error. auto.
        -- split; [eauto | discriminate].
      * split; [eauto | discriminate].
  - split; [auto|]. split; [|discriminate].
    intros id H. discriminate H.
Qed.

(** X26. When the judge answers with a verdict only (no score) and the
    configuration sets no threshold, the expectation passes exactly when
    the judge passed, provided 1.0 reaches the default threshold and 0.0
    does not. *)
Theorem judge_verdict_without_score
    (configs : gmap string (JudgeConfig Number))
    (context : EvalExpectationContext World JudgeClient)
    (evalCase : EvalCase) (response : JsValue) (w w' : World)
    (id : string) (client : JudgeClient) (config : JudgeConfig Number)
    (answer : LLMJudgeResult Number) :
  Number_ge one defaultThreshold = true ->
  Number_ge zero defaultThreshold = false ->
  ec_judgeConfigId evalCase = Some id -> id <> "" ->
  judgeClient context = Some client ->
  lookupConfig configs id = Some config ->
  passingThreshold config = None ->
  evaluate client response
    (nullish_coalesce
       (match ec_expectedExact evalCase with
        | JUndefined => reference config
        | expected => expected
        end) JNull)
    (rubric config) w = (Returned answer, w') ->
  jr_score answer = None ->
  exists details,
    createJudgeExpectation Number_ge one zero defaultThreshold toFixed2
      Number_String evaluate configs context evalCase response w
    = (Returned {| er_pass := jr_pass answer; er_details := details |}, w').
Proof.
  intros H1 H0 Hid Hne Hclient Hconfig Hthr Hev Hscore.
  unfold createJudgeExpectation. rewrite Hid.
  destruct (String.eqb id "") eqn:Eid;
    [apply String.eqb_eq in Eid; contradiction|].
  rewrite Hclient, Hconfig, Hev. unfold judged. rewrite Hthr, Hscore. simpl.
  destruct (jr_pass answer); rewrite ?H1, ?H0; eauto.
Qed.

End Facts.

Import Demo MoreDemo.

Lemma judge_expectation_outcomes_witness :
  exists details,
    createJudgeExpectation Z.geb 100%Z 0%Z 70%Z pretty pretty lenientJudge
      judgeConfigs context judgedCase (JStr "hello") 0%Z
    = (Returned {| er_pass := false; er_details := details |}, 0%Z).
Proof.
  apply (proj1 (proj2 (judge_expectation_outcomes World JudgeClient Z Z.geb
                         100%Z 0%Z 70%Z pretty pretty lenientJudge judgeConfigs
                         context judgedCase (JStr "hello") 0%Z))
               "quality" eq_refl);
    [discriminate | left; reflexivity].
Defined.

Lemma judge_verdict_without_score_witness :
  exists details,
    createJudgeExpectation Z.geb 100%Z 0%Z 70%Z pretty pretty lenientJudge
      judgeConfigs judgingContext judgedCase (JStr "hello") 0%Z
    = (Returned {| er_pass := true; er_details := details |}, 3%Z).
Proof.
  apply (judge_verdict_without_score World JudgeClient Z Z.geb 100%Z 0%Z 70%Z
           pretty pretty lenientJudge judgeConfigs judgingContext judgedCase
           (JStr "hello") 0%Z 3%Z "quality" tt
           {| rubric := JStr "Is it polite?"; reference := JUndefined;
              passingThreshold := None |}
           {| jr_pass := true; jr_score := None; jr_reasoning := Some "fine" |});
    try reflexivity.
  discriminate.
Defined.

End JudgeFacts.

(** ** Instances of the lemmas on the error expectation and on a throwing
       tool call *)

Module MoreWitnesses.
Import Runner Demo MoreDemo.

Lemma error_expectation_behaviour_witness :
  exists result,
    createErrorExpectation
      (EvalCase_of_object
         [("id", JStr "search-validates-query"); ("toolName", JStr "search");
          ("args", JObj [("query", JStr "")]);
          ("expectedError", JStr "query is required")])
      errorResponse = Returned result /\
    er_pass result = true.
Proof.
  destruct (proj2 (proj2 (ExpectationFacts.error_expectation_behaviour
              (EvalCase_of_object
                 [("id", JStr "search-validates-query"); ("toolName", JStr "search");
                  ("args", JObj [("query", JStr "")]);
                  ("expectedError", JStr "query is required")])
              errorResponse))
              eq_refl ["query is required"] "Query is REQUIRED"
              (or_intror (ex_intro _ "query is required" (conj eq_refl eq_refl)))
              eq_refl) as (result & Hres & Hpass).
  exists result. split; [exact Hres|].
  apply Hpass. intros s [<-|[]]. reflexivity.
Defined.

Lemma text_expectations_throw_only_with_extractor_witness :
  createRegexExpectation (withRegex (mkCase "w" "echo" "hi") (OneString "hi"))
    bigintArray
  = Threw (ThrownError "TypeError" "Do not know how to serialize a BigInt").
Proof.
  apply (proj1 (proj2 (ExpectationMoreFacts.text_expectations_throw_only_with_extractor
                         (withRegex (mkCase "w" "echo" "hi") (OneString "hi"))
                         bigintArray
                         (ThrownError "TypeError"
                                      "Do not know how to serialize a BigInt")))).
  split; [discriminate | reflexivity].
Defined.

End MoreWitnesses.


(** ** The suggester and the previews *)

Module SuggesterFacts.
Import Suggester.

Lemma existsb_eqb_In (x : string) (l : list string) :
  existsb (String.eqb x) l = true <-> In x l.
Proof.
  rewrite existsb_exists. split.
  - intros (y & Hy & E). apply String.eqb_eq in E. subst. exact Hy.
  - intros H. exists x. split; [exact H | apply String.eqb_refl].
Qed.

Lemma uniqueFrom_spec (seen xs : list string) :
  List.NoDup (uniqueFrom seen xs) /\
  (forall x, In x (uniqueFrom seen xs) <-> In x xs /\ ~ In x seen) /\
  length (uniqueFrom seen xs) <= length xs.
Proof.
  revert seen. induction xs as [|x xs IH]; intros seen; simpl.
  - split; [constructor|]. split; [tauto | lia].
  - destruct (existsb (String.eqb x) seen) eqn:E.
    + apply existsb_eqb_In in E. destruct (IH seen) as (Hnd & Hin & Hlen).
      split; [exact Hnd|]. split; [|lia].
      intros y. rewrite Hin. split; [tauto|].
      intros [[<-|Hy] Hs]; [contradiction | tauto].
    + assert (Hx : ~ In x seen).
      { intros H. apply existsb_eqb_In in H. congruence. }
      destruct (IH (x :: seen)) as (Hnd & Hin & Hlen).
      split; [|split; [|simpl; lia]].
      * constructor; [|exact Hnd]. rewrite Hin. simpl. tauto.
      * intros y. simpl. rewrite Hin. simpl. split.
        -- intros [<-|[Hy Hs]]; [tauto|]. split; [tauto|]. tauto.
        -- intros [[<-|Hy] Hs]; [tauto|].
           destruct (string_dec x y) as [->|Hne]; [tauto|]. right. tauto.
Qed.

Lemma fewOf_length (xs : list string) : length (fewOf xs) <= 3.
Proof.
  unfold fewOf. destruct (_ && _); simpl; [|lia].
  rewrite length_take. lia.
Qed.

Section Facts.
Context {literals : RegExpLiterals}.

(** X27. The text-contains suggestions have no duplicates, and there are at
    most six of them beyond one per header match (three bold spans, three
    key-value lines, or the single fallback). *)
Theorem suggestions_distinct_and_bounded (text : string) :
  List.NoDup (suggestTextContains text) /\
  length (suggestTextContains text)
  <= length (matchAll "^(#{1,6})\s+(.+)$" "gm" text) + 6.
Proof.
  unfold suggestTextContains, unique.
  match goal with |- context [uniqueFrom [] ?l] =>
    destruct (uniqueFrom_spec [] l) as (Hnd & _ & Hlen); split; [exact Hnd|];
    etransitivity; [exact Hlen|] end.
  set (base := headerSuggestions text ++ fewOf (boldTexts text) ++ fewOf (kvPairs text)).
  assert (Hbase : length base <= length (matchAll "^(#{1,6})\s+(.+)$" "gm" text) + 6).
  { subst base. rewrite !length_app. unfold headerSuggestions. rewrite length_map.
    pose proof (fewOf_length (boldTexts text)).
    pose proof (fewOf_length (kvPairs text)). lia. }
  destruct (Nat.eqb (length base) 0 && Nat.ltb 10 (String.length text)) eqn:E.
  - apply andb_true_iff in E as [E _]. apply Nat.eqb_eq in E.
    destruct (Nat.ltb 0 (String.length (firstLine text)));
      rewrite ?length_app; simpl; lia.
  - lia.
Qed.

(** X28. When the text has no header, and neither one to five bold spans nor
    one to five key-value lines, the only suggestion is the start of its
    first line (at most 50 characters), and that only for a text longer
    than 10 characters whose first line is not empty. *)
Theorem suggestions_fall_back_to_first_line (text : string) :
  matchAll "^(#{1,6})\s+(.+)$" "gm" text = [] ->
  fewOf (boldTexts text) = [] ->
  fewOf (kvPairs text) = [] ->
  suggestTextContains text
  = if Nat.ltb 10 (String.length text) && Nat.ltb 0 (String.length (firstLine text))
    then [String.substring 0 50 (firstLine text)]
    else [].
Proof.
  intros Hh Hb Hk. unfold suggestTextContains, headerSuggestions.
  rewrite Hh, Hb, Hk. simpl.
  destruct (Nat.ltb 10 (String.length text)); [|reflexivity].
  destruct (Nat.ltb 0 (String.length (firstLine text))); reflexivity.
Qed.

End Facts.

Import Demo MoreDemo.

Lemma suggestions_fall_back_to_first_line_witness :
  @suggestTextContains sevenBold ("**a** **b** **c** **d**" +:+ nl +:+ "**e** **f** **g**")
  = ["**a** **b** **c** **d**"].
Proof.
  rewrite (@suggestions_fall_back_to_first_line sevenBold
             ("**a** **b** **c** **d**" +:+ nl +:+ "**e** **f** **g**")
             eq_refl eq_refl eq_refl).
  reflexivity.
Defined.

Lemma length_append (a b : string) :
  String.length (a +:+ b) = String.length a + String.length b.
Proof. induction a as [|c a IH]; simpl; [reflexivity | rewrite IH; reflexivity]. Qed.

Lemma length_slice0 (n : nat) (s : string) :
  String.length (slice0 n s) = Nat.min n (String.length s).
Proof.
  unfold slice0. revert n. induction s as [|c s IH]; intros [|n]; simpl; auto.
Qed.

Lemma slice0_all (n : nat) (s : string) : String.length s <= n -> slice0 n s = s.
Proof.
  unfold slice0. revert n. induction s as [|c s IH]; intros [|n]; simpl; auto.
  - lia.
  - intros H. rewrite IH by lia. reflexivity.
Qed.

(** X29. The text preview put into failure details is the text itself when it
    has at most 500 characters, and its first 500 characters followed by
    three dots otherwise: never more than 503 characters. *)
Theorem preview_bounded (text : string) :
  String.length (preview text) <= 503 /\
  (String.length text <= 500 -> preview text = text) /\
  (500 < String.length text ->
   preview text = slice0 500 text +:+ "..." /\ String.length (preview text) = 503).
Proof.
  unfold preview.
  destruct (Nat.ltb 500 (String.length text)) eqn:E.
  - apply Nat.ltb_lt in E. rewrite length_append, length_slice0.
    change (String.length "...") with 3.
    split; [lia|]. split; [lia|]. intros _. split; [reflexivity | lia].
  - apply Nat.ltb_ge in E. rewrite length_append, length_slice0.
    change (String.length "") with 0.
    split; [lia|]. split; [|lia]. intros _. rewrite slice0_all by exact E.
    clear E. induction text as [|c t IH]; [reflexivity|].
    change (String c t +:+ "") with (String c (t +:+ "")). rewrite IH. reflexivity.
Qed.

Lemma preview_bounded_witness : preview "3 results" = "3 results".
Proof.
  apply (proj1 (proj2 (preview_bounded "3 results"))).
  apply Nat.leb_le. reflexivity.
Defined.

End SuggesterFacts.
